(** * exchange.py: a WebSocket server answering [exchange <days>]

    A shallow embedding of [src/exchange.py] and the properties of its
    command handler: dispatch, argument parsing and validation, the
    fan-out of one rate lookup per day with its order-preserving join,
    and the shape of a single day's result.

    Python values are modelled as follows.
    - [str] is a sequence of Unicode code points, [list N].
    - [int] is [Z]; a [float] is its IEEE 754 value, [spec_float].
    - A [dict] is an association list in insertion order with one binding
      per key; [list] is [list].
    - A raised exception is the [Raise] case of [result]; code with side
      effects runs in the monad [M] over the [world] it can change: the
      frames sent on the connection, the lines appended to the log file
      and the requests made to the upstream service.
    - What the program reads from outside (the clock, the upstream
      service, the order in which pending requests complete, the
      library's JSON encoder) is a variable of the section [Server]. *)

From Stdlib Require Import ZArith NArith String Ascii DecimalString SpecFloat.
From stdpp Require Import base option list gmap.

Local Open Scope N_scope.

(** ** Text *)

Abbreviation str := (list N) (only parsing).

(** A literal of the source, as code points. *)
Definition lit (s : string) : str := map N_of_ascii (list_ascii_of_string s).
Arguments lit : simpl never.

(** [str.isspace] of one character: the code points the interpreter
    classifies as whitespace. *)
Definition isspace (c : N) : bool :=
  ((9 <=? c) && (c <=? 13)) || ((28 <=? c) && (c <=? 32))
  || (c =? 133) || (c =? 160) || (c =? 5760)
  || ((8192 <=? c) && (c <=? 8202))
  || (c =? 8232) || (c =? 8233) || (c =? 8239) || (c =? 8287) || (c =? 12288).

(** [s.split()] with no separator: the maximal runs of characters that
    are not whitespace, in order. [word] holds the current run, reversed. *)
Fixpoint split_from (word : str) (s : str) : list str :=
  match s with
  | [] => match word with [] => [] | _ => [rev word] end
  | c :: rest =>
      if isspace c then
        match word with
        | [] => split_from [] rest
        | _ => rev word :: split_from [] rest
        end
      else split_from (c :: word) rest
  end.

Definition split (s : str) : list str := split_from [] s.

(** [s.startswith(prefix)]. *)
Fixpoint startswith (s prefix : str) : bool :=
  match prefix, s with
  | [], _ => true
  | p :: prefix', c :: s' => (c =? p) && startswith s' prefix'
  | _ :: _, [] => false
  end.

(** A surrogate code point. A text that holds one has no UTF-8 encoding:
    [s.encode("utf-8")] raises [UnicodeEncodeError]. *)
Definition is_surrogate (c : N) : bool := (55296 <=? c) && (c <=? 57343).

Definition encodable (s : str) : bool :=
  forallb (fun c => negb (is_surrogate c)) s.

(** [str(z)] for an [int]: decimal digits, with a minus sign when negative. *)
Definition str_of_Z (z : Z) : str := lit (NilZero.string_of_int (Z.to_int z)).
Arguments str_of_Z : simpl never.

(** [s.zfill(width)] for a string without a sign. *)
Definition zfill (width : nat) (s : str) : str :=
  replicate (width - length s) 48 ++ s.

(** ** Exceptions and results *)

Inductive exn : Type :=
| ValueError
| TypeError
| AttributeError
| KeyError
| OverflowError
| ClientError
| TimeoutError
| UnicodeEncodeError.

Inductive result (A : Type) : Type :=
| Ok (a : A)
| Raise (e : exn).
Arguments Ok {A} a.
Arguments Raise {A} e.

#[global] Instance result_ret : MRet result := fun _ a => Ok a.
#[global] Instance result_bind : MBind result := fun _ _ f r =>
  match r with
  | Ok a => f a
  | Raise e => Raise e
  end.

(** ** [int(s)] *)

(** The white space of the C locale, which the number parser skips. *)
Definition is_c_space (c : N) : bool := (c =? 32) || ((9 <=? c) && (c <=? 13)).

Definition is_digit (c : N) : bool := (48 <=? c) && (c <=? 57).

(** The default limit of the interpreter on the decimal digits of a
    literal it converts. *)
Definition max_str_digits : nat := 4300.

Section Int.
(** The decimal value of a character in the interpreter's Unicode
    database, where it has one (the digits of other scripts); it is
    consulted for the code points from 127 on. *)
Variable todecimal : N -> option N.

(** Before parsing, the characters from 127 on are replaced: white space
    by a blank, a decimal digit by its ASCII digit; at the first other
    character the text is cut and a question mark stands for it. *)
Fixpoint to_ascii_decimal (s : str) : str :=
  match s with
  | [] => []
  | ch :: rest =>
      if ch <? 127 then ch :: to_ascii_decimal rest
      else if isspace ch then 32 :: to_ascii_decimal rest
      else match todecimal ch with
           | Some d => (48 + d) :: to_ascii_decimal rest
           | None => [63]
           end
  end.

(** The run of digits: single underscores are allowed between digits
    only. Gives the value, the number of digits and what follows, or
    [None] at a doubled or trailing underscore. *)
Fixpoint digit_run (prev : N) (acc : Z) (ndigits : nat) (s : str)
  : option (Z * nat * str) :=
  match s with
  | c :: rest =>
      if is_digit c then
        digit_run c (10 * acc + Z.of_N (c - 48)) (S ndigits) rest
      else if c =? 95 then
        if prev =? 95 then None else digit_run c acc ndigits rest
      else if prev =? 95 then None else Some (acc, ndigits, s)
  | [] => if prev =? 95 then None else Some (acc, ndigits, s)
  end.

Fixpoint lstrip (s : str) : str :=
  match s with
  | c :: rest => if is_c_space c then lstrip rest else s
  | [] => []
  end.

(** [int(s)] in base ten: optional white space, an optional sign, digits,
    optional white space; anything else, and a literal of more digits
    than the limit, raises [ValueError]. *)
Definition int (s : str) : result Z :=
  let buf := lstrip (to_ascii_decimal s) in
  let '(sign, buf) :=
    match buf with
    | 43 :: r => (1%Z, r)
    | 45 :: r => ((-1)%Z, r)
    | _ => (1%Z, buf)
    end in
  match buf with
  | 95 :: _ => Raise ValueError
  | _ =>
      match digit_run 0 0 0 buf with
      | Some (v, n, rest) =>
          if bool_decide (n = 0%nat) then Raise ValueError
          else if bool_decide (max_str_digits < n)%nat then Raise ValueError
          else if forallb is_c_space rest then Ok (sign * v)%Z
          else Raise ValueError
      | None => Raise ValueError
      end
  end.

End Int.


(** ** Values *)

Local Set Warnings "-register-all".

(** The values a decoded JSON document is made of, which are also the
    values [fetch_rates] builds. [VNone] is [None], the decoding of
    [null] and the default of [dict.get]. *)
Inductive value : Type :=
| VNone
| VBool (b : bool)
| VInt (z : Z)
| VFloat (f : spec_float)
| VStr (s : str)
| VList (l : list value)
| VDict (d : list (str * value)).

(** [d.get(k)] on the bindings of a dictionary: the first binding of [k]. *)
Fixpoint dict_get (k : str) (d : list (str * value)) : option value :=
  match d with
  | [] => None
  | (k', v) :: d' => if bool_decide (k' = k) then Some v else dict_get k d'
  end.

(** [d[k] = v]: the value of an existing key is replaced where it stands,
    a new key is added at the end. *)
Fixpoint dict_set (k : str) (v : value) (d : list (str * value))
  : list (str * value) :=
  match d with
  | [] => [(k, v)]
  | (k', v') :: d' =>
      if bool_decide (k' = k) then (k', v) :: d' else (k', v') :: dict_set k v d'
  end.

Definition keys (d : list (str * value)) : list str := map fst d.

(** [x.get(k, default)]: only a dictionary has the method. *)
Definition py_get (x : value) (k : str) (otherwise : value) : result value :=
  match x with
  | VDict d => Ok (default otherwise (dict_get k d))
  | _ => Raise AttributeError
  end.

(** [x[k]] for a text key [k]. *)
Definition py_getitem (x : value) (k : str) : result value :=
  match x with
  | VDict d => match dict_get k d with Some v => Ok v | None => Raise KeyError end
  | _ => Raise TypeError
  end.

(** The elements [for rate in x] runs over: the items of a list, the keys
    of a dictionary, the characters of a text; nothing else is iterable. *)
Definition py_iter (x : value) : result (list value) :=
  match x with
  | VList l => Ok l
  | VDict d => Ok (map (fun kv => VStr (fst kv)) d)
  | VStr s => Ok (map (fun c => VStr [c]) s)
  | _ => Raise TypeError
  end.

(** [x in currencies] for a list of texts: only an equal text is a member. *)
Definition py_in (x : value) (currencies : list str) : bool :=
  match x with
  | VStr s => bool_decide (s ∈ currencies)
  | _ => false
  end.

(** ** Dates *)

(** A [datetime.date] is its proleptic Gregorian ordinal, day 1 being
    0001-01-01; the library computes with dates through it. *)
Abbreviation date := Z (only parsing).

Local Open Scope Z_scope.

Definition _MAXORDINAL : Z := 3652059.
Definition _DI400Y : Z := 146097.
Definition _DI100Y : Z := 36524.
Definition _DI4Y : Z := 1461.
Definition _DAYS_IN_MONTH : list Z :=
  [-1; 31; 28; 31; 30; 31; 30; 31; 31; 30; 31; 30; 31].
Definition _DAYS_BEFORE_MONTH : list Z :=
  [-1; 0; 31; 59; 90; 120; 151; 181; 212; 243; 273; 304; 334].

Definition Z_of_bool (b : bool) : Z := if b then 1 else 0.

(** Year, month and day of an ordinal, as [datetime] computes them. *)
Definition _ord2ymd (n : Z) : Z * Z * Z :=
  let n := n - 1 in
  let n400 := n / _DI400Y in
  let n := n mod _DI400Y in
  let year := n400 * 400 + 1 in
  let n100 := n / _DI100Y in
  let n := n mod _DI100Y in
  let n4 := n / _DI4Y in
  let n := n mod _DI4Y in
  let n1 := n / 365 in
  let n := n mod 365 in
  let year := year + (n100 * 100 + n4 * 4 + n1) in
  if (n1 =? 4) || (n100 =? 4) then (year - 1, 12, 31)
  else
    let leapyear := (n1 =? 3) && (negb (n4 =? 24) || (n100 =? 3)) in
    let month := Z.shiftr (n + 50) 5 in
    let preceding :=
      nth (Z.to_nat month) _DAYS_BEFORE_MONTH 0
      + Z_of_bool ((2 <? month) && leapyear) in
    let '(month, preceding) :=
      if n <? preceding then
        (month - 1,
         preceding - (nth (Z.to_nat (month - 1)) _DAYS_IN_MONTH 0
                      + Z_of_bool ((month - 1 =? 2) && leapyear)))
      else (month, preceding) in
    (year, month, n - preceding + 1).

(** [d.strftime("%d.%m.%Y")]: day and month on two digits, the year on four. *)
Definition strftime (d : date) : str :=
  let '(year, month, day) := _ord2ymd d in
  zfill 2 (str_of_Z day) ++ lit "." ++ zfill 2 (str_of_Z month)
  ++ lit "." ++ zfill 4 (str_of_Z year).

Arguments strftime : simpl never.

(** [d - datetime.timedelta(days=i)]: the library refuses a result
    outside the years 1 to 9999. *)
Definition date_sub (d : date) (i : Z) : result date :=
  let o := d + - i in
  if (0 <? o) && (o <=? _MAXORDINAL) then Ok o else Raise OverflowError.

(** [range(n)]. *)
Definition range (n : Z) : list Z := Z.of_nat <$> seq 0 (Z.to_nat n).


(** ** The world of the server *)

(** What a reply of the upstream service is to the program: its status
    and what [await response.json()] gives, a decoded document or the
    exception of a body that is no JSON. *)
Record response : Type := Response {
  status : Z;
  json : result value
}.

(** What the handler of one connection can change: the frames sent on
    the WebSocket, the lines appended to the log file, and the URLs
    requested from the upstream service in the order the requests
    finished; each oldest first. *)
Record world : Type := World {
  sent : list str;
  log_file : list str;
  requests : list str
}.

(** A computation with effects: from a world to a value or an exception,
    and the world it leaves. Effects made before an exception stay. *)
Definition M (A : Type) : Type := world -> result A * world.

#[global] Instance M_ret : MRet M := fun _ a w => (Ok a, w).
#[global] Instance M_bind : MBind M := fun _ _ f m w =>
  match m w with
  | (Ok a, w') => f a w'
  | (Raise e, w') => (Raise e, w')
  end.

(** A value or exception computed without effects. *)
Definition lift {A : Type} (r : result A) : M A := fun w => (r, w).

(** The [k]-th element of a list and the others in their order. *)
Fixpoint pick {A : Type} (k : nat) (l : list A) : option (A * list A) :=
  match l with
  | [] => None
  | x :: l' =>
      match k with
      | O => Some (x, l')
      | S k' =>
          match pick k' l' with
          | Some (y, r) => Some (y, x :: r)
          | None => None
          end
      end
  end.

(** The fixed reply to a day count outside 1..10, as the source spells it. *)
Definition validation_error : str :=
  [1054; 1096; 1080; 1073; 1082; 1072; 58; 32; 1082; 1086; 1083; 1080;
   1095; 1077; 1089; 1090; 1074; 1086; 32; 1076; 1085; 1077; 1081; 32;
   1076; 1086; 1083; 1078; 1085; 1086; 32; 1073; 1099; 1090; 1100; 32;
   1086; 1090; 32; 49; 32; 1076; 1086; 32; 49; 48; 46]%N.

Definition BASE_URL : str := lit "https://api.privatbank.ua/p24api/exchange_rates".

(** ** A sample environment

    Concrete surroundings on which the handler can be run: the digits of
    ASCII only, a compact encoder, a day (3 November 2026) and an
    upstream service that knows three days. *)

Definition ascii_only : N -> option N := fun _ => None.

Fixpoint sample_dumps (x : value) : str :=
  match x with
  | VNone => lit "null"
  | VBool b => if b then lit "true" else lit "false"
  | VInt z => str_of_Z z
  | VFloat _ => lit "<float>"
  | VStr s => [34%N] ++ s ++ [34%N]
  | VList l =>
      lit "[" ++ concat (map (fun y => sample_dumps y ++ lit ",") l) ++ lit "]"
  | VDict d =>
      lit "{"
      ++ concat (map (fun kv => [34%N] ++ fst kv ++ [34%N] ++ lit ":"
                                ++ sample_dumps (snd kv) ++ lit ",") d)
      ++ lit "}"
  end.

Definition sample_today : date := 739923.

(** 41.5 and 41.05 as binary64 values. *)
Definition f41_5 : spec_float := S754_finite false 5840696476008448 (-47).
Definition f41_05 : spec_float := S754_finite false 5777364627050496 (-47).

(** The records of the sample day: one without a currency, one of a
    currency that is not asked for, one complete, one without a sale rate. *)
Definition sample_records : list value :=
  [VDict [(lit "baseCurrency", VStr (lit "UAH"));
          (lit "saleRateNB", VFloat f41_5)];
   VDict [(lit "currency", VStr (lit "GBP"));
          (lit "saleRate", VInt 55);
          (lit "purchaseRate", VInt 54)];
   VDict [(lit "currency", VStr (lit "USD"));
          (lit "saleRate", VFloat f41_5);
          (lit "purchaseRate", VFloat f41_05)];
   VDict [(lit "currency", VStr (lit "EUR"));
          (lit "purchaseRate", VInt 47)]].

Definition sample_fields : list (str * value) :=
  [(lit "date", VStr (lit "03.11.2026"));
   (lit "bank", VStr (lit "PB"));
   (lit "exchangeRate", VList sample_records)].

Definition sample_payload : value := VDict sample_fields.

Definition sample_day2_payload : value :=
  VDict [(lit "date", VStr (lit "01.11.2026"))].

Definition sample_upstream (url : str) : result response :=
  if bool_decide (url = BASE_URL ++ lit "?date=03.11.2026") then
    Ok (Response 200 (Ok sample_payload))
  else if bool_decide (url = BASE_URL ++ lit "?date=02.11.2026") then
    Ok (Response 404 (Raise ValueError))
  else if bool_decide (url = BASE_URL ++ lit "?date=01.11.2026") then
    Ok (Response 200 (Ok sample_day2_payload))
  else Raise ClientError.

(** What a fetch returns from the sample service for the sample day, for
    the day before (a 404) and for two days before (no rates). *)
Definition sample_day0 : value :=
  VDict [(lit "03.11.2026",
          VDict [(lit "USD",
                  VDict [(lit "sale", VFloat f41_5);
                         (lit "purchase", VFloat f41_05)]);
                 (lit "EUR",
                  VDict [(lit "sale", VNone); (lit "purchase", VInt 47)])])].

Definition sample_day1 : value :=
  VDict [(lit "error", VStr (lit "HTTP Error 404"))].

Definition sample_day2 : value := VDict [(lit "01.11.2026", VDict [])].


(** Two records of the same currency, and a service that gives them for
    every day. *)
Definition sample_usd_first : list (str * value) :=
  [(lit "currency", VStr (lit "USD")); (lit "saleRate", VInt 40)].

Definition sample_usd_last : list (str * value) :=
  [(lit "currency", VStr (lit "USD")); (lit "purchaseRate", VInt 39)].

Definition repeating_doc : list (str * value) :=
  [(lit "exchangeRate", VList [VDict sample_usd_first; VDict sample_usd_last])].

Definition repeating_upstream (url : str) : result response :=
  Ok (Response 200 (Ok (VDict repeating_doc))).

(** A service whose document is a list except for the sample day. *)
Definition broken_upstream (url : str) : result response :=
  if bool_decide (url = BASE_URL ++ lit "?date=03.11.2026") then
    Ok (Response 200 (Ok sample_payload))
  else Ok (Response 200 (Ok (VList []))).



(** Services whose document for every day has a record that is a number,
    the value [null] under "exchangeRate", or is a list. *)
Definition number_record_upstream (url : str) : result response :=
  Ok (Response 200
        (Ok (VDict [(lit "exchangeRate", VList [VDict []; VInt 5])]))).

Definition null_rates_upstream (url : str) : result response :=
  Ok (Response 200 (Ok (VDict [(lit "exchangeRate", VNone)]))).

Definition list_document_upstream (url : str) : result response :=
  Ok (Response 200 (Ok (VList []))).

Definition sample_now : nat -> str := fun _ => lit "2026-11-03 12:00:00.000000".

Definition w0 : world := {| sent := []; log_file := []; requests := [] |}.

Section Server.

Local Set Default Proof Using "Type".

(** The environment of one command. *)

(** The decimal value of a digit outside ASCII, for [int]. *)
Variable todecimal : N -> option N.
(** [json.dumps(x, ensure_ascii=False, indent=2)]. *)
Variable dumps : value -> str.
(** [datetime.date.today()]. *)
Variable today : date.
(** The upstream service: what a GET of a URL gives, a reply or the
    exception of a failed transport. *)
Variable upstream : str -> result response.
(** The order in which pending requests complete: at each completion,
    the position among those still pending (taken modulo their number). *)
Variable completion : list nat.
(** [str(datetime.datetime.now())] when the log already has [n] lines. *)
Variable now : nat -> str.

(** *** ExchangeRateFetcher *)

(** [session.get(url)]: the request reaches the service, which replies
    or fails. *)
Definition session_get (url : str) : M response := fun w =>
  (upstream url,
   {| sent := sent w; log_file := log_file w; requests := requests w ++ [url] |}).

(** The dictionary comprehension of [fetch_rates] over the records still
    to visit, [rates] being the dictionary built so far. For each record
    the condition is evaluated first, then the key, then the value. *)
Fixpoint comprehension (currencies : list str) (records : list value)
  (rates : list (str * value)) : result (list (str * value)) :=
  match records with
  | [] => Ok rates
  | rate :: rest =>
      c ← py_get rate (lit "currency") VNone;
      if py_in c currencies then
        k ← py_getitem rate (lit "currency");
        sale ← py_get rate (lit "saleRate") VNone;
        purchase ← py_get rate (lit "purchaseRate") VNone;
        (* The key passed the membership test, so it is a text. *)
        match k with
        | VStr k =>
            comprehension currencies rest
              (dict_set k (VDict [(lit "sale", sale); (lit "purchase", purchase)]) rates)
        | _ => Raise TypeError
        end
      else comprehension currencies rest rates
  end.

Definition fetch_rates (date : date) (currencies : list str) : M value :=
  let formatted_date := strftime date in
  let url := BASE_URL ++ lit "?date=" ++ formatted_date in
  response ← session_get url;
  if negb (status response =? 200) then
    mret (VDict [(lit "error", VStr (lit "HTTP Error " ++ str_of_Z (status response)))])
  else
    data ← lift (json response);
    exchangeRate ← lift (py_get data (lit "exchangeRate") (VList []));
    records ← lift (py_iter exchangeRate);
    rates ← lift (comprehension currencies records []);
    mret (VDict [(formatted_date, VDict rates)]).

(** *** Logger *)

(** [Logger.log]: one line, the time and the message, appended to the
    file, which is taken to be writable. The handler logs fixed text or
    text it has just sent, after a time stamp, so the line can be encoded. *)
Definition log (message : str) : M unit := fun w =>
  (Ok (),
   {| sent := sent w;
      log_file := log_file w
                  ++ [now (length (log_file w)) ++ lit " - " ++ message ++ [10%N]];
      requests := requests w |}).

(** *** WebSocketServer *)

(** [websocket.send(response)], on a connection that is taken to be open.
    The text is encoded before anything is written: a response that
    cannot be encoded raises and no frame is sent. *)
Definition websocket_send (response : str) : M unit := fun w =>
  if encodable response then
    (Ok (),
     {| sent := sent w ++ [response]; log_file := log_file w;
        requests := requests w |})
  else (Raise UnicodeEncodeError, w).

(** The completions of [asyncio.gather]: while tasks are pending, the
    next one to complete is picked by [picks]; its result is stored under
    its index, or its exception is noted if it is the first. *)
Fixpoint complete {A : Type} (fuel : nat) (pending : list (nat * M A))
  (picks : list nat) (done : gmap nat A) (failed : option exn) (w : world)
  : gmap nat A * option exn * world :=
  match fuel with
  | O => (done, failed, w)
  | S fuel' =>
      match pick (hd 0%nat picks `mod` length pending)%nat pending with
      | None => (done, failed, w)
      | Some ((i, task), pending') =>
          match task w with
          | (Ok a, w') => complete fuel' pending' (tl picks) (<[i := a]> done) failed w'
          | (Raise e, w') =>
              complete fuel' pending' (tl picks) done (Some (default e failed)) w'
          end
      end
  end.

(** [await asyncio.gather] of the tasks. Every task runs to its end, and
    takes effect when it completes; the first exception raised, if any,
    is raised to the caller, otherwise the results are read from the
    tasks in the order of [tasks]. *)
Definition gather {A : Type} (tasks : list (M A)) : M (list A) := fun w =>
  let n := length tasks in
  let '(done, failed, w') := complete n (zip (seq 0 n) tasks) completion ∅ None w in
  match failed with
  | Some e => (Raise e, w')
  | None => (Ok (omap (fun i => done !! i) (seq 0 n)), w')
  end.

Definition handle_exchange (message : str) : M unit :=
  let parts := split message in
  days ← lift (if bool_decide (1 < length parts)%nat
               then int todecimal (nth 1 parts [])
               else Ok 1);
  let currencies := [lit "USD"; lit "EUR"] in
  if (days <? 1) || (10 <? days) then
    let response := validation_error in
    websocket_send response;;
    log response
  else
    tasks ← lift (mapM (fun i => date ← date_sub today i;
                                 mret (fetch_rates date currencies))
                       (range days));
    results ← gather tasks;
    let response := dumps (VList results) in
    websocket_send response;;
    log (lit "exchange " ++ str_of_Z days ++ lit ": " ++ response).

(** [handle_client] over the text messages the connection delivers. An
    exception of one command ends the handler. *)
Fixpoint handle_client (websocket : list str) : M unit :=
  match websocket with
  | [] => mret ()
  | message :: rest =>
      (if startswith message (lit "exchange")
       then handle_exchange message
       else mret ());;
      handle_client rest
  end.


(** *** Notions the properties are stated with *)

(** The currencies [handle_exchange] asks for. *)
Definition currencies_default : list str := [lit "USD"; lit "EUR"].

(** The URL [fetch_rates] requests for a date. *)
Definition url_of (date : date) : str := BASE_URL ++ lit "?date=" ++ strftime date.

(** What [fetch_rates] returns or raises for a date; it does not depend
    on the world it starts in, see [fetch_rates_run]. *)
Definition fetch_result (date : date) (currencies : list str) : result value :=
  (fetch_rates date currencies w0).1.

(** The value [fetch_rates] returns for a status other than 200. *)
Definition http_error (s : Z) : value :=
  VDict [(lit "error", VStr (lit "HTTP Error " ++ str_of_Z s))].

(** The day count [handle_exchange] computes from a message. *)
Definition day_count (message : str) : result Z :=
  if bool_decide (1 < length (split message))%nat
  then int todecimal (nth 1 (split message) [])
  else Ok 1.

(** The line [Logger.log] writes for a message into a log of [n] lines. *)
Definition log_line (n : nat) (message : str) : str :=
  now n ++ lit " - " ++ message ++ [10%N].

(** The world after a response was sent and a message logged. *)
Definition reply (response message : str) (w : world) : world :=
  {| sent := sent w ++ [response];
     log_file := log_file w ++ [log_line (length (log_file w)) message];
     requests := requests w |}.

(** The end of a command: the response is sent and the message logged,
    or the response cannot be encoded and the send raises. *)
Definition send_and_log (response message : str) (w : world)
  : result unit * world :=
  if encodable response then (Ok (), reply response message w)
  else (Raise UnicodeEncodeError, w).

(** The days an accepted command asks for, today first. *)
Definition dates_of (days : Z) : list date := (fun i => today - i) <$> range days.

(** The response and the log are as before. *)
Definition quiet (w w' : world) : Prop :=
  sent w' = sent w ∧ log_file w' = log_file w.

(** A record of the upstream document that names a currency. *)
Definition has_currency (rate : value) : bool :=
  match rate with
  | VDict fields => bool_decide (is_Some (dict_get (lit "currency") fields))
  | _ => false
  end.

Definition is_dict (x : value) : Prop :=
  match x with VDict _ => True | _ => False end.

(** The entry the comprehension builds from the fields of a record. *)
Definition entry_of (fields : list (str * value)) : value :=
  VDict [(lit "sale", default VNone (dict_get (lit "saleRate") fields));
         (lit "purchase", default VNone (dict_get (lit "purchaseRate") fields))].

(** The rates after the comprehension has visited a record with these
    fields: an entry is set when the currency is a requested text. *)
Definition retain (cur : list str) (fields : list (str * value))
  (rates : list (str * value)) : list (str * value) :=
  match dict_get (lit "currency") fields with
  | Some (VStr k) =>
      if bool_decide (k ∈ cur) then dict_set k (entry_of fields) rates else rates
  | _ => rates
  end.

(** The world with requests added. *)
Definition requested (q : list str) (w : world) : world :=
  {| sent := sent w; log_file := log_file w; requests := requests w ++ q |}.

(** ** Properties *)

(** *** The fetcher *)

Lemma fetch_rates_run (date : date) (currencies : list str) (w : world) :
  fetch_rates date currencies w
  = (fetch_result date currencies,
     {| sent := sent w; log_file := log_file w;
        requests := requests w ++ [url_of date] |}).
Proof.
  unfold fetch_result, fetch_rates, session_get, url_of, mbind, M_bind, lift.
  simpl. destruct (upstream _) as [r|e]; [|reflexivity].
  destruct (negb _); [reflexivity|].
  destruct (json r) as [data|e]; [|reflexivity].
  destruct (py_get data _ _) as [x|e]; [|reflexivity].
  destruct (py_iter x) as [records|e]; [|reflexivity].
  destruct (comprehension _ _ _); reflexivity.
Qed.

Lemma fetch_result_reply (date : date) (cur : list str) (r : response) :
  upstream (url_of date) = Ok r →
  fetch_result date cur
  = if negb (status r =? 200) then Ok (http_error (status r))
    else
      data ← json r;
      exchangeRate ← py_get data (lit "exchangeRate") (VList []);
      records ← py_iter exchangeRate;
      rates ← comprehension cur records [];
      Ok (VDict [(strftime date, VDict rates)]).
Proof.
  intros Hr.
  unfold fetch_result, fetch_rates, session_get, mbind, M_bind, result_bind, lift.
  cbv zeta. change (BASE_URL ++ lit "?date=" ++ strftime date) with (url_of date).
  rewrite Hr. simpl.
  destruct (negb _); [done|].
  destruct (json r) as [data|e]; [|done].
  destruct (py_get data _ _) as [x|e]; [|done].
  destruct (py_iter x) as [records|e]; [|done].
  destruct (comprehension _ _ _); done.
Qed.

Lemma strftime_dot (d : date) : 46%N ∈ strftime d.
Proof.
  unfold strftime. destruct (_ord2ymd d) as [[year month] day].
  apply elem_of_app. right. apply elem_of_app. left.
  change (lit ".") with [46%N]. by apply list_elem_of_singleton.
Qed.

Lemma strftime_not_error (d : date) : strftime d ≠ lit "error".
Proof.
  intros Heq. pose proof (strftime_dot d) as Hdot. rewrite Heq in Hdot.
  apply list_elem_of_In in Hdot. vm_compute in Hdot. intuition discriminate.
Qed.

Lemma elem_of_dict_set (k : str) (v : value) (d : list (str * value))
  (c : str) (e : value) :
  (c, e) ∈ dict_set k v d → (c, e) ∈ d ∨ (c = k ∧ e = v).
Proof.
  induction d as [|[k' v'] d IH]; simpl.
  - intros [= -> ->]%list_elem_of_singleton. by right.
  - case_bool_decide as Hk.
    + intros [[= -> ->]|Hin]%elem_of_cons; [by right|].
      left. apply elem_of_cons. by right.
    + intros [Hin|Hin]%elem_of_cons.
      * left. apply elem_of_cons. by left.
      * destruct (IH Hin) as [?|?]; [|by right].
        left. apply elem_of_cons. by right.
Qed.

(** Every binding the comprehension adds has a requested currency as key
    and is built from a record of that currency. *)
Lemma comprehension_spec (cur : list str) (records : list value) :
  ∀ rates rates', comprehension cur records rates = Ok rates' →
  ∀ c entry, (c, entry) ∈ rates' →
    (c, entry) ∈ rates
    ∨ (c ∈ cur
       ∧ ∃ fields, VDict fields ∈ records
                   ∧ dict_get (lit "currency") fields = Some (VStr c)
                   ∧ entry = entry_of fields).
Proof.
  induction records as [|rate rest IH]; intros rates rates' H c entry Hin.
  - injection H as <-. by left.
  - assert (Hrest : ∀ rates0, comprehension cur rest rates0 = Ok rates' →
              (c, entry) ∈ rates0
              ∨ (c ∈ cur
                 ∧ ∃ fields, VDict fields ∈ rate :: rest
                     ∧ dict_get (lit "currency") fields = Some (VStr c)
                     ∧ entry = entry_of fields)).
    { intros rates0 H0. destruct (IH _ _ H0 c entry Hin) as [?|(? & f & ? & ?)].
      - by left.
      - right. split; [done|]. exists f. split; [|done]. apply elem_of_cons. by right. }
    destruct rate as [| | | | |l|fields]; try discriminate H.
    simpl in H. unfold mbind, result_bind in H.
    destruct (dict_get (lit "currency") fields) as [v|] eqn:Hc; simpl in H.
    2: { exact (Hrest _ H). }
    destruct v as [| | | |k| |]; simpl in H; try exact (Hrest _ H).
    case_bool_decide as Hk; [|exact (Hrest _ H)].
    destruct (Hrest _ H) as [Hset|?]; [|by right].
    apply elem_of_dict_set in Hset as [?|[-> ->]]; [by left|].
    right. split; [done|]. exists fields. split; [|done]. apply elem_of_cons. by left.
Qed.

(** Over records that are dictionaries the comprehension raises nothing,
    and a record without a currency changes nothing. *)
Lemma comprehension_skips (cur : list str) (records : list value) :
  Forall is_dict records →
  ∀ rates,
    comprehension cur (List.filter has_currency records) rates
    = comprehension cur records rates
    ∧ ∃ rates', comprehension cur records rates = Ok rates'.
Proof.
  induction 1 as [|rate rest Hrate _ IH]; intros rates; [by eauto|].
  destruct rate as [| | | | | |fields]; try done.
  simpl. unfold mbind, result_bind.
  destruct (dict_get (lit "currency") fields) as [v|] eqn:Hc; simpl.
  { unfold mbind, result_bind. rewrite Hc. simpl.
    destruct v as [| | | |k| |]; simpl; try apply IH.
    case_bool_decide; simpl; apply IH. }
  apply IH.
Qed.

(** *** The join *)

Lemma pick_lt {A : Type} (l : list A) (k : nat) :
  (k < length l)%nat → ∃ x r, pick k l = Some (x, r) ∧ l ≡ₚ x :: r.
Proof.
  revert k. induction l as [|y l IH]; intros k Hk; simpl in *; [lia|].
  destruct k as [|k]; simpl; [by eauto|].
  destruct (IH k) as (x & r & Hpk & Hp); [lia|]. rewrite Hpk.
  exists x, (y :: r). split; [done|]. rewrite Hp. apply Permutation_swap.
Qed.

Lemma quiet_refl (w : world) : quiet w w.
Proof. by split. Qed.

Lemma quiet_trans (w1 w2 w3 : world) : quiet w1 w2 → quiet w2 w3 → quiet w1 w3.
Proof. intros [? ?] [? ?]. split; congruence. Qed.

(** The loop of completions, for tasks whose results [rs] do not depend
    on the world and which leave the connection and the log alone. *)
Lemma complete_spec {A : Type} (rs : nat → result A) (fuel : nat) :
  ∀ (pending : list (nat * M A)) (picks : list nat) (done : gmap nat A)
    (failed : option exn) (w : world),
  fuel = length pending →
  NoDup pending.*1 →
  (∀ i t, (i, t) ∈ pending → ∀ w, (t w).1 = rs i ∧ quiet w (t w).2) →
  ∃ done' failed' w',
    complete fuel pending picks done failed w = (done', failed', w')
    ∧ quiet w w'
    ∧ (∀ i, i ∉ pending.*1 → done' !! i = done !! i)
    ∧ (∀ i a, i ∈ pending.*1 → rs i = Ok a → done' !! i = Some a)
    ∧ (failed = None → (∀ i, i ∈ pending.*1 → ∃ a, rs i = Ok a) → failed' = None)
    ∧ ((failed ≠ None ∨ ∃ i e, i ∈ pending.*1 ∧ rs i = Raise e) → failed' ≠ None)
    ∧ (∀ e, failed' = Some e →
         failed = Some e ∨ ∃ i, i ∈ pending.*1 ∧ rs i = Raise e).
Proof.
  induction fuel as [|fuel IH]; intros pending picks done failed w Hlen Hnd Htasks.
  - destruct pending; [|done]. simpl. exists done, failed, w.
    split_and!.
    + done.
    + apply quiet_refl.
    + done.
    + intros i a Hi. by apply elem_of_nil in Hi.
    + done.
    + intros [?|(i & e & Hi & _)]; [done|]. by apply elem_of_nil in Hi.
    + eauto.
  - simpl.
    destruct (pick_lt pending (hd 0%nat picks `mod` length pending)%nat)
      as ([i t] & pending' & -> & Hperm).
    { apply Nat.mod_upper_bound. rewrite <- Hlen. lia. }
    assert (Hfst : pending.*1 ≡ₚ i :: pending'.*1) by (by rewrite Hperm).
    assert (Hnd' : NoDup (i :: pending'.*1)) by (by rewrite <- Hfst).
    apply NoDup_cons in Hnd' as [Hi Hnd'].
    assert (Hin : ∀ j, j ∈ pending.*1 ↔ j = i ∨ j ∈ pending'.*1).
    { intros j. rewrite Hfst. apply elem_of_cons. }
    destruct (Htasks i t) with (w := w) as [Hr Hq].
    { rewrite Hperm. apply elem_of_cons. by left. }
    assert (Hlen' : fuel = length pending').
    { apply Permutation_length in Hperm. simpl in Hperm. lia. }
    assert (Htasks' : ∀ j u, (j, u) ∈ pending' →
              ∀ w, (u w).1 = rs j ∧ quiet w (u w).2).
    { intros j u Hj. apply Htasks. rewrite Hperm. apply elem_of_cons. by right. }
    destruct (t w) as [r w1] eqn:Htw. simpl in Hr, Hq. subst r.
    destruct (rs i) as [a|e] eqn:Hrs.
    + destruct (IH pending' (tl picks) (<[i:=a]> done) failed w1 Hlen' Hnd' Htasks')
        as (done' & failed' & w' & -> & Hq' & Hout & Hres & Hnone & Hsome & Hexn).
      exists done', failed', w'. split_and!.
      * done.
      * by eapply quiet_trans.
      * intros j Hj. rewrite Hin in Hj.
        rewrite Hout by (intros ?; apply Hj; by right).
        apply lookup_insert_ne. intros ->. apply Hj. by left.
      * intros j b Hj Hb. apply Hin in Hj as [->|Hj]; [|by apply Hres].
        rewrite Hout by done. rewrite lookup_insert_eq. congruence.
      * intros Hf Hall. apply Hnone; [done|]. intros j Hj. apply Hall, Hin.
        by right.
      * intros [Hf|(j & e & Hj & He)]; apply Hsome; [by left|].
        apply Hin in Hj as [->|Hj]; [congruence|]. right. eauto.
      * intros e He. destruct (Hexn e He) as [?|(j & Hj & Hje)]; [by left|].
        right. exists j. rewrite Hin. split; [by right|done].
    + destruct (IH pending' (tl picks) done (Some (default e failed)) w1
                  Hlen' Hnd' Htasks')
        as (done' & failed' & w' & -> & Hq' & Hout & Hres & Hnone & Hsome & Hexn).
      exists done', failed', w'. split_and!.
      * done.
      * by eapply quiet_trans.
      * intros j Hj. rewrite Hin in Hj. apply Hout. intros ?. apply Hj. by right.
      * intros j b Hj Hb. apply Hin in Hj as [->|Hj]; [congruence|by apply Hres].
      * intros Hf Hall. destruct (Hall i) as [a Ha]; [apply Hin; by left|congruence].
      * intros _. apply Hsome. by left.
      * intros e' He'. destruct (Hexn e' He') as [Hd|(j & Hj & Hje)].
        -- destruct failed as [e0|]; simpl in Hd; [by left|].
           right. exists i. split; [apply Hin; by left|congruence].
        -- right. exists j. rewrite Hin. split; [by right|done].
Qed.


Lemma omap_seq_lookup {A : Type} (f : nat → option A) (vs : list A) (s : nat) :
  (∀ i, (i < length vs)%nat → f (s + i)%nat = vs !! i) →
  omap f (seq s (length vs)) = vs.
Proof.
  revert s. induction vs as [|v vs IH]; intros s Hf; [done|]. simpl.
  specialize (Hf 0%nat) as Hf0. rewrite Nat.add_0_r in Hf0.
  rewrite Hf0 by (simpl; lia). simpl. f_equal. apply IH. intros i Hi.
  replace (S s + i)%nat with (s + S i)%nat by lia. apply Hf. simpl. lia.
Qed.

(** The join of the fetches for [dates]: the connection and the log are
    left alone; if every fetch returns, the results come in the order of
    [dates], whatever [completion] is; an exception raised is that of one
    of the fetches, and one is raised as soon as a fetch raises. *)
Lemma gather_fetch_spec (dates : list date) (cur : list str) (w : world) :
  ∃ r w',
    gather ((fun d => fetch_rates d cur) <$> dates) w = (r, w')
    ∧ quiet w w'
    ∧ (∀ vs, Forall2 (fun d v => fetch_result d cur = Ok v) dates vs → r = Ok vs)
    ∧ (∀ e, r = Raise e → ∃ d, d ∈ dates ∧ fetch_result d cur = Raise e)
    ∧ ((∃ d e, d ∈ dates ∧ fetch_result d cur = Raise e) → ∃ e, r = Raise e).
Proof.
  set (tasks := (fun d => fetch_rates d cur) <$> dates).
  set (n := length dates).
  set (rs := fun i => match dates !! i with
                      | Some d => fetch_result d cur
                      | None => Raise ValueError
                      end).
  assert (Hn : length tasks = n) by apply length_fmap.
  destruct (complete_spec rs n (zip (seq 0 n) tasks) completion ∅ None w)
    as (done' & failed' & w' & Hc & Hq & _ & Hres & Hnone & Hsome & Hexn).
  { rewrite length_zip_with, length_seq. lia. }
  { rewrite fst_zip by (rewrite length_seq; lia). apply NoDup_seq. }
  { intros i t Hit w1.
    apply elem_of_lookup_zip_with_1 in Hit as (j & x & y & Heq & Hx & Hy).
    injection Heq as -> ->. apply lookup_seq in Hx as [-> _]. simpl.
    unfold tasks in Hy. apply list_lookup_fmap_Some in Hy as (d & -> & Hd).
    unfold rs. rewrite Hd, fetch_rates_run. split; [done|by split]. }
  rewrite fst_zip in Hres, Hnone, Hsome, Hexn by (rewrite length_seq; lia).
  assert (Hdate : ∀ i, i ∈ seq 0 n → ∃ d, dates !! i = Some d ∧ d ∈ dates).
  { intros i Hi. apply elem_of_seq in Hi.
    destruct (lookup_lt_is_Some_2 dates i) as [d Hd]; [unfold n in Hi; lia|].
    exists d. split; [done|]. apply list_elem_of_lookup. eauto. }
  unfold gather. rewrite Hn, Hc.
  destruct failed' as [e|].
  - exists (Raise e), w'. split_and!.
    + done.
    + done.
    + intros vs Hvs. exfalso. destruct (Hexn e eq_refl) as [?|(i & Hi & Hr)]; [done|].
      destruct (Hdate i Hi) as (d & Hd & _). unfold rs in Hr. rewrite Hd in Hr.
      destruct (Forall2_lookup_l _ _ _ _ _ Hvs Hd) as (v & _ & Hv). congruence.
    + intros e' [= <-]. destruct (Hexn e eq_refl) as [?|(i & Hi & Hr)]; [done|].
      destruct (Hdate i Hi) as (d & Hd & Hin). unfold rs in Hr. rewrite Hd in Hr.
      eauto.
    + eauto.
  - exists (Ok (omap (fun i => done' !! i) (seq 0 n))), w'. split_and!.
    + done.
    + done.
    + intros vs Hvs. f_equal.
      assert (Hlen : length vs = n) by (symmetry; by eapply Forall2_length).
      rewrite <- Hlen. apply omap_seq_lookup. intros i Hi. simpl.
      destruct (lookup_lt_is_Some_2 vs i Hi) as [v Hv].
      destruct (Forall2_lookup_r _ _ _ _ _ Hvs Hv) as (d & Hd & Hdv).
      rewrite Hv. apply Hres.
      * apply elem_of_seq. lia.
      * unfold rs. by rewrite Hd.
    + done.
    + intros (d & e & Hd & He). exfalso. apply Hsome; [|done]. right.
      apply list_elem_of_lookup in Hd as [i Hi]. exists i, e. split.
      * apply elem_of_seq. apply lookup_lt_Some in Hi. unfold n. lia.
      * unfold rs. by rewrite Hi.
Qed.

(** *** The command handler *)

Lemma elem_of_range (n i : Z) : i ∈ range n ↔ 0 ≤ i < n.
Proof.
  unfold range. rewrite list_elem_of_fmap. split.
  - intros (k & -> & Hk). apply elem_of_seq in Hk. lia.
  - intros Hi. exists (Z.to_nat i). split; [lia|]. apply elem_of_seq. lia.
Qed.

Lemma length_range (n : Z) : 0 ≤ n → Z.of_nat (length (range n)) = n.
Proof. intros Hn. unfold range. rewrite length_fmap, length_seq. lia. Qed.

Lemma mapM_cons {A B : Type} (f : A → result B) (x : A) (l : list A) :
  mapM f (x :: l) = y ← f x; k ← mapM f l; mret (y :: k).
Proof. reflexivity. Qed.

(** Building the tasks raises nothing when every date is in range. *)
Lemma tasks_in_range (cur : list str) (l : list Z) :
  (∀ i, i ∈ l → 0 < today - i ≤ _MAXORDINAL) →
  mapM (fun i => date ← date_sub today i; mret (fetch_rates date cur)) l
  = Ok ((fun d => fetch_rates d cur) <$> ((fun i => today - i) <$> l)).
Proof.
  induction l as [|i l IH]; intros Hl; [done|].
  rewrite mapM_cons, IH by (intros j Hj; apply Hl; by right).
  assert (Hi : 0 < today - i ≤ _MAXORDINAL) by (apply Hl; by left).
  unfold date_sub. replace (today + - i) with (today - i) by lia.
  destruct (Z.ltb_spec 0 (today - i)); [|lia].
  destruct (Z.leb_spec (today - i) _MAXORDINAL); [|lia]. done.
Qed.

(** In general it raises or gives one fetch per day asked for. *)
Lemma tasks_cases (cur : list str) (l : list Z) :
  (∃ e, mapM (M := result)
               (fun i => date ← date_sub today i; mret (fetch_rates date cur)) l
        = Raise e)
  ∨ (∃ dates,
       mapM (M := result)
            (fun i => date ← date_sub today i; mret (fetch_rates date cur)) l
       = Ok ((fun d => fetch_rates d cur) <$> dates)).
Proof.
  induction l as [|i l IH]; [right; by exists []|].
  rewrite mapM_cons.
  destruct (date_sub today i) as [d|e]; [|left; by exists e].
  destruct IH as [[e ->]|[dates ->]]; [left; by exists e|].
  right. by exists (d :: dates).
Qed.

(** [handle_exchange], step by step. *)
Lemma handle_exchange_unfold (message : str) (w : world) :
  handle_exchange message w =
  match day_count message with
  | Raise e => (Raise e, w)
  | Ok days =>
      if (days <? 1) || (10 <? days) then
        send_and_log validation_error validation_error w
      else
        match mapM (M := result)
                   (fun i => date ← date_sub today i;
                             mret (fetch_rates date currencies_default))
                   (range days) with
        | Raise e => (Raise e, w)
        | Ok tasks =>
            match gather tasks w with
            | (Ok results, w') =>
                send_and_log (dumps (VList results))
                  (lit "exchange " ++ str_of_Z days ++ lit ": "
                   ++ dumps (VList results)) w'
            | (Raise e, w') => (Raise e, w')
            end
        end
  end.
Proof.
  unfold handle_exchange, day_count, mbind, M_bind, lift, send_and_log,
    websocket_send.
  destruct (if bool_decide _ then _ else _) as [days|e]; [|done].
  destruct ((days <? 1) || (10 <? days));
    [by destruct (encodable validation_error)|].
  fold currencies_default.
  destruct (mapM _ _) as [tasks|e]; [|done].
  destruct (gather tasks w) as [[results|e] w']; [|done].
  by destruct (encodable _).
Qed.

Lemma validation_error_encodable : encodable validation_error = true.
Proof. vm_compute. reflexivity. Qed.


Lemma handle_client_single (message : str) (w : world) :
  handle_client [message] w
  = if startswith message (lit "exchange") then handle_exchange message w
    else (Ok (), w).
Proof.
  unfold handle_client, mbind, M_bind.
  destruct (startswith _ _); [|done].
  destruct (handle_exchange message w) as [[[]|e] w']; done.
Qed.

Lemma handle_client_raise (message : str) (rest : list str) (e : exn) (w w' : world) :
  startswith message (lit "exchange") = true →
  handle_exchange message w = (Raise e, w') →
  handle_client (message :: rest) w = (Raise e, w').
Proof.
  intros Hs He. simpl. unfold mbind, M_bind. by rewrite Hs, He.
Qed.

(** An accepted command on a day from which the days asked for can be
    counted back: the fetches of [dates_of days] are joined. *)
Lemma handle_exchange_accepted (message : str) (days : Z) (w : world) :
  day_count message = Ok days →
  1 ≤ days ≤ 10 →
  10 ≤ today ≤ _MAXORDINAL →
  handle_exchange message w =
  match gather ((fun d => fetch_rates d currencies_default) <$> dates_of days) w with
  | (Ok results, w') =>
      send_and_log (dumps (VList results))
        (lit "exchange " ++ str_of_Z days ++ lit ": " ++ dumps (VList results))
        w'
  | (Raise e, w') => (Raise e, w')
  end.
Proof.
  intros Hd Hdays Htoday. rewrite handle_exchange_unfold, Hd.
  destruct (Z.ltb_spec days 1); [lia|]. destruct (Z.ltb_spec 10 days); [lia|].
  simpl. rewrite tasks_in_range; [done|].
  intros i Hi. apply elem_of_range in Hi. lia.
Qed.


Lemma exchange_some_raise (message : str) (days k : Z) (e : exn) (w : world) :
  day_count message = Ok days →
  1 ≤ days ≤ 10 →
  10 ≤ today ≤ _MAXORDINAL →
  0 ≤ k < days →
  fetch_result (today - k) currencies_default = Raise e →
  ∃ e' w', handle_exchange message w = (Raise e', w')
           ∧ quiet w w'
           ∧ ∃ j, 0 ≤ j < days
                  ∧ fetch_result (today - j) currencies_default = Raise e'.
Proof.
  intros Hd Hdays Htoday Hk He.
  rewrite (handle_exchange_accepted _ days) by done.
  destruct (gather_fetch_spec (dates_of days) currencies_default w)
    as (r & w' & -> & Hq & _ & Hexn & Hraise).
  destruct Hraise as [e' ->].
  { exists (today - k), e. split; [|done]. unfold dates_of.
    apply list_elem_of_fmap. exists k. split; [done|]. by apply elem_of_range. }
  exists e', w'. split_and!; [done..|].
  destruct (Hexn e' eq_refl) as (d & Hin & Hr). unfold dates_of in Hin.
  apply list_elem_of_fmap in Hin as (j & -> & Hj). apply elem_of_range in Hj. eauto.
Qed.

(** Whatever the message, the command either returns having sent one
    response and logged one line, or raises having sent and logged nothing. *)
Lemma handle_exchange_cases (message : str) (w : world) :
  ∃ r w', handle_exchange message w = (r, w')
    ∧ ((r = Ok ()
        ∧ ∃ response entry,
            sent w' = sent w ++ [response] ∧ log_file w' = log_file w ++ [entry])
       ∨ (∃ e, r = Raise e ∧ quiet w w')).
Proof.
  rewrite handle_exchange_unfold.
  destruct (day_count message) as [days|e].
  2: { eexists _, _. split; [done|]. right. exists e. split; [done|apply quiet_refl]. }
  destruct ((days <? 1) || (10 <? days)).
  { unfold send_and_log. rewrite validation_error_encodable.
    eexists _, _. split; [done|]. left. split; [done|]. simpl. eauto. }
  destruct (tasks_cases currencies_default (range days)) as [[e ->]|[dates ->]].
  { eexists _, _. split; [done|]. right. exists e. split; [done|apply quiet_refl]. }
  destruct (gather_fetch_spec dates currencies_default w)
    as (r & w' & -> & [Hs Hl] & _).
  destruct r as [results|e].
  - unfold send_and_log. destruct (encodable _).
    + eexists _, _. split; [done|]. left. split; [done|]. simpl.
      rewrite Hs, Hl. eauto.
    + eexists _, _. split; [done|]. right. exists UnicodeEncodeError. by split.
  - eexists _, _. split; [done|]. right. exists e. by split.
Qed.

Lemma int_raises_ValueError (s : str) (e : exn) :
  int todecimal s = Raise e → e = ValueError.
Proof. unfold int. intros H. repeat case_match; congruence. Qed.


Lemma day_count_exchange (days : Z) :
  1 ≤ days ≤ 10 →
  startswith (lit "exchange " ++ str_of_Z days) (lit "exchange") = true
  ∧ day_count (lit "exchange " ++ str_of_Z days) = Ok days.
Proof.
  intros H.
  assert (Hc : days = 1 ∨ days = 2 ∨ days = 3 ∨ days = 4 ∨ days = 5 ∨ days = 6
               ∨ days = 7 ∨ days = 8 ∨ days = 9 ∨ days = 10) by lia.
  repeat destruct Hc as [->|Hc]; try subst days; by vm_compute.
Qed.


(** *** The claims *)




(** C2, as the code has it. A message is dispatched on the prefix of its
    text: one that does not start with [exchange] is skipped, with no
    response, no log line and no fetch; one that starts with [exchange]
    is handled by [handle_exchange], which either returns having sent one
    response and logged one line, or raises having sent and logged nothing. *)
Theorem C2_dispatch_on_prefix (message : str) (w : world) :
  ∃ r w', handle_client [message] w = (r, w')
    ∧ if startswith message (lit "exchange") then
        handle_exchange message w = (r, w')
        ∧ ((r = Ok ()
            ∧ ∃ response entry,
                sent w' = sent w ++ [response]
                ∧ log_file w' = log_file w ++ [entry])
           ∨ (∃ e, r = Raise e ∧ sent w' = sent w ∧ log_file w' = log_file w))
      else r = Ok () ∧ w' = w.
Proof.
  rewrite handle_client_single.
  destruct (startswith message (lit "exchange")); [|by eexists _, _].
  destruct (handle_exchange_cases message w) as (r & w' & Hrun & Hcases).
  exists r, w'. split; [done|]. split; [done|].
  destruct Hcases as [?|(e & ? & ? & ?)]; [by left|right; eauto].
Qed.

(** C3. When the day count of a message is below 1 or above 10, the
    command returns after sending the fixed error text as the response
    and logging that same text: one frame more, one log line more, and no
    request to the upstream service. *)
Theorem C3_day_count_out_of_range (message : str) (days : Z) (w : world) :
  day_count message = Ok days →
  days < 1 ∨ 10 < days →
  handle_exchange message w
  = (Ok (),
     {| sent := sent w ++ [validation_error];
        log_file := log_file w
                    ++ [log_line (length (log_file w)) validation_error];
        requests := requests w |}).
Proof.
  intros Hd Hdays. rewrite handle_exchange_unfold, Hd.
  unfold send_and_log. rewrite validation_error_encodable.
  destruct (Z.ltb_spec days 1); [done|].
  destruct (Z.ltb_spec 10 days); [done|lia].
Qed.



(** C6. When the reply has the status 200 and [fetch_rates] returns, it
    returns the rates under the formatted date, and every entry of the
    rates has a requested currency as its key and was built from a
    record of the document that names this currency: its sale and
    purchase are the record's [saleRate] and [purchaseRate], and [None]
    where the record has no such field. *)
Theorem C6_rates_are_filtered (date : date) (cur : list str) (r : response)
  (w : world) (v : value) :
  upstream (url_of date) = Ok r →
  status r = 200 →
  (fetch_rates date cur w).1 = Ok v →
  ∃ data exchangeRate records rates,
    json r = Ok data
    ∧ py_get data (lit "exchangeRate") (VList []) = Ok exchangeRate
    ∧ py_iter exchangeRate = Ok records
    ∧ v = VDict [(strftime date, VDict rates)]
    ∧ ∀ c entry, (c, entry) ∈ rates →
        c ∈ cur
        ∧ ∃ fields,
            VDict fields ∈ records
            ∧ dict_get (lit "currency") fields = Some (VStr c)
            ∧ entry
              = VDict [(lit "sale",
                        default VNone (dict_get (lit "saleRate") fields));
                       (lit "purchase",
                        default VNone (dict_get (lit "purchaseRate") fields))].
Proof.
  intros Hr Hs Hv. rewrite fetch_rates_run in Hv. simpl in Hv.
  rewrite (fetch_result_reply _ _ r Hr), Hs in Hv. simpl in Hv.
  unfold mbind, result_bind in Hv.
  destruct (json r) as [data|e]; [|done].
  destruct (py_get data _ _) as [x|e] eqn:Hx; [|done].
  destruct (py_iter x) as [records|e] eqn:Hrecords; [|done].
  destruct (comprehension cur records []) as [rates|e] eqn:Hrates; [|done].
  injection Hv as <-. exists data, x, records, rates. split_and!; [done..|].
  intros c entry Hin.
  destruct (comprehension_spec _ _ _ _ Hrates c entry Hin) as [Hnil|Hgood].
  - by apply elem_of_nil in Hnil.
  - done.
Qed.

(** C7. A dispatched message whose second token [int] does not accept
    raises [ValueError] out of the handler of the connection: nothing is
    sent, nothing is logged, nothing is requested, and the messages after
    it are not handled. *)
Theorem C7_parse_is_not_guarded (message : str) (rest : list str) (e : exn)
  (w : world) :
  startswith message (lit "exchange") = true →
  (1 < length (split message))%nat →
  int todecimal (nth 1 (split message) []) = Raise e →
  handle_client (message :: rest) w = (Raise ValueError, w).
Proof.
  intros Hs Hlen Hint. apply handle_client_raise; [done|].
  rewrite handle_exchange_unfold. unfold day_count.
  rewrite bool_decide_eq_true_2, Hint by done.
  by rewrite (int_raises_ValueError _ _ Hint).
Qed.

(** C8. When the transport fails for one of the days of an accepted
    command, the command raises, and so does the handler of the
    connection: the exception is one raised by a fetch of the command, no
    response is sent and the log is as before. *)
Theorem C8_transport_fault_aborts (message : str) (rest : list str)
  (days k : Z) (e : exn) (w : world) :
  startswith message (lit "exchange") = true →
  day_count message = Ok days →
  1 ≤ days ≤ 10 →
  10 ≤ today ≤ _MAXORDINAL →
  0 ≤ k < days →
  upstream (url_of (today - k)) = Raise e →
  ∃ e' w',
    handle_client (message :: rest) w = (Raise e', w')
    ∧ sent w' = sent w
    ∧ log_file w' = log_file w
    ∧ ∃ j, 0 ≤ j < days
           ∧ fetch_result (today - j) currencies_default = Raise e'.
Proof.
  intros Hs Hd Hdays Htoday Hk Hup.
  assert (He : fetch_result (today - k) currencies_default = Raise e).
  { unfold fetch_result, fetch_rates, session_get, mbind, M_bind. cbv zeta.
    change (BASE_URL ++ lit "?date=" ++ strftime (today - k))
      with (url_of (today - k)).
    by rewrite Hup. }
  destruct (exchange_some_raise _ days k e w Hd Hdays Htoday Hk He)
    as (e' & w' & Hrun & [Hsent Hlog] & Hj).
  exists e', w'. split_and!; [|done..]. by apply handle_client_raise.
Qed.

(** C9. For a status other than 200 the result of [fetch_rates] is a
    dictionary whose only key is "error"; the formatted date of the
    request is not a key of it. *)
Theorem C9_error_carries_no_date (date : date) (cur : list str) (r : response)
  (w : world) :
  upstream (url_of date) = Ok r →
  status r ≠ 200 →
  ∃ d, (fetch_rates date cur w).1 = Ok (VDict d)
       ∧ keys d = [lit "error"]
       ∧ dict_get (strftime date) d = None.
Proof.
  intros Hr Hs. rewrite fetch_rates_run. simpl.
  rewrite (fetch_result_reply _ _ r Hr).
  destruct (Z.eqb_spec (status r) 200); [done|]. simpl.
  eexists. split; [done|]. split; [done|]. simpl.
  rewrite bool_decide_eq_false_2; [done|].
  intros Heq. by apply (strftime_not_error date).
Qed.

(** C10. For a reply with the status 200 whose document is a dictionary:
    without the key "exchangeRate", [fetch_rates] returns the empty rates
    under the date; with a list of records that are dictionaries, it
    returns and raises nothing, and the rates are those of the records
    that have a "currency" field, the others being skipped. *)
Theorem C10_malformed_records_are_skipped (date : date) (cur : list str)
  (r : response) (fields : list (str * value)) (w : world) :
  upstream (url_of date) = Ok r →
  status r = 200 →
  json r = Ok (VDict fields) →
  (dict_get (lit "exchangeRate") fields = None →
   (fetch_rates date cur w).1 = Ok (VDict [(strftime date, VDict [])]))
  ∧ (∀ records,
       dict_get (lit "exchangeRate") fields = Some (VList records) →
       Forall is_dict records →
       ∃ rates,
         (fetch_rates date cur w).1 = Ok (VDict [(strftime date, VDict rates)])
         ∧ comprehension cur (List.filter has_currency records) [] = Ok rates).
Proof.
  intros Hr Hs Hj. rewrite fetch_rates_run. simpl.
  rewrite (fetch_result_reply _ _ r Hr), Hs, Hj. simpl.
  unfold mbind, result_bind. split.
  - intros ->. done.
  - intros records -> Hrec. simpl.
    destruct (comprehension_skips cur records Hrec []) as [Heq [rates Hrates]].
    exists rates. rewrite Hrates. split; [done|]. by rewrite Heq.
Qed.


(** *** Further properties of the fetcher *)


Lemma dict_get_dict_set_eq (k : str) (v : value) (d : list (str * value)) :
  dict_get k (dict_set k v d) = Some v.
Proof.
  induction d as [|[k' v'] d IH]; simpl.
  - by rewrite bool_decide_eq_true_2.
  - case_bool_decide as Hk; simpl.
    + by rewrite bool_decide_eq_true_2.
    + by rewrite bool_decide_eq_false_2.
Qed.

Lemma dict_get_dict_set_ne (k k' : str) (v : value) (d : list (str * value)) :
  k ≠ k' → dict_get k' (dict_set k v d) = dict_get k' d.
Proof.
  intros Hne. induction d as [|[k0 v0] d IH]; simpl.
  - by rewrite bool_decide_eq_false_2.
  - case_bool_decide as Hk; simpl.
    + subst k0. by rewrite !bool_decide_eq_false_2.
    + by rewrite IH.
Qed.

Lemma elem_of_keys_dict_set (k c : str) (v : value) (d : list (str * value)) :
  c ∈ keys (dict_set k v d) ↔ c ∈ keys d ∨ c = k.
Proof.
  unfold keys. induction d as [|[k0 v0] d IH]; simpl.
  - rewrite list_elem_of_singleton. split; [by right|].
    intros [Hnil| ->]; [by apply elem_of_nil in Hnil|done].
  - case_bool_decide as Hk; simpl.
    + subst k0. rewrite elem_of_cons. split; [by left|].
      intros [?| ->]; [done|by left].
    + rewrite !elem_of_cons, IH. split.
      * intros [?|[?|?]]; [by left; left|by left; right|by right].
      * intros [[?|?]|?]; [by left|by right; left|by right; right].
Qed.

Lemma comprehension_cons_dict (cur : list str) (fields : list (str * value))
  (rest : list value) (rates : list (str * value)) :
  comprehension cur (VDict fields :: rest) rates
  = comprehension cur rest (retain cur fields rates).
Proof.
  simpl. unfold mbind, result_bind, retain, entry_of.
  destruct (dict_get (lit "currency") fields) as [v|] eqn:Hc; simpl; [|done].
  destruct v as [| | | |k| |]; simpl; try done.
  by case_bool_decide.
Qed.

Lemma comprehension_cons_other (cur : list str) (x : value) (rest : list value)
  (rates : list (str * value)) :
  ¬ is_dict x → comprehension cur (x :: rest) rates = Raise AttributeError.
Proof. intros Hx. by destruct x. Qed.

Lemma comprehension_ok_dicts (cur : list str) (records : list value) :
  ∀ rates rates', comprehension cur records rates = Ok rates' →
  Forall is_dict records.
Proof.
  induction records as [|x rest IH]; intros rates rates' H; [by constructor|].
  destruct x as [| | | | | |fields]; try discriminate H.
  rewrite comprehension_cons_dict in H. constructor; [done|by eapply IH].
Qed.

Lemma comprehension_exn (cur : list str) (records : list value) :
  ∀ rates e, comprehension cur records rates = Raise e → e = AttributeError.
Proof.
  induction records as [|x rest IH]; intros rates e H; [done|].
  destruct x as [| | | | | |fields]; try (by injection H).
  rewrite comprehension_cons_dict in H. by eapply IH.
Qed.

Lemma comprehension_app (cur : list str) (pre post : list value) :
  ∀ rates, comprehension cur (pre ++ post) rates
           = comprehension cur pre rates ≫= comprehension cur post.
Proof.
  induction pre as [|x pre IH]; intros rates; [done|].
  destruct x as [| | | | | |fields]; try done.
  change ((VDict fields :: pre) ++ post) with (VDict fields :: (pre ++ post)).
  by rewrite !comprehension_cons_dict, IH.
Qed.

Lemma elem_of_keys_retain (cur : list str) (fields : list (str * value))
  (rates : list (str * value)) (c : str) :
  c ∈ keys (retain cur fields rates)
  ↔ c ∈ keys rates
    ∨ (c ∈ cur ∧ dict_get (lit "currency") fields = Some (VStr c)).
Proof.
  unfold retain.
  destruct (dict_get (lit "currency") fields) as [v|];
    [|split; [by left|by intros [?|[_ ?]]]].
  destruct v as [| | | |k| |];
    try (split; [by left|by intros [?|[_ ?]]]).
  case_bool_decide as Hk.
  - rewrite elem_of_keys_dict_set. split.
    + intros [?| ->]; [by left|by right].
    + intros [?|[_ [= ->]]]; [by left|by right].
  - split; [by left|]. intros [?|[? [= ->]]]; done.
Qed.

(** The keys the comprehension ends with: those it started with and the
    requested currencies that a record names. *)
Lemma comprehension_keys (cur : list str) (records : list value) :
  ∀ rates rates', comprehension cur records rates = Ok rates' →
  ∀ c, c ∈ keys rates'
       ↔ c ∈ keys rates
         ∨ (c ∈ cur
            ∧ ∃ fields, VDict fields ∈ records
                        ∧ dict_get (lit "currency") fields = Some (VStr c)).
Proof.
  induction records as [|x rest IH]; intros rates rates' H c.
  - injection H as <-. split; [by left|]. intros [?|(_ & f & Hf & _)]; [done|].
    by apply elem_of_nil in Hf.
  - destruct x as [| | | | | |fields]; try discriminate H.
    rewrite comprehension_cons_dict in H.
    rewrite (IH _ _ H c), elem_of_keys_retain. split.
    + intros [[?|[? ?]]|(? & f & Hf & ?)].
      * by left.
      * right. split; [done|]. exists fields. split; [by left|done].
      * right. split; [done|]. exists f. split; [by right|done].
    + intros [?|(? & f & Hf & Hc)]; [by left; left|].
      apply elem_of_cons in Hf as [[= ->]|Hf].
      * left. right. done.
      * right. split; [done|]. by exists f.
Qed.

(** Records that do not name the currency [c] leave its entry alone. *)
Lemma comprehension_get_other (cur : list str) (c : str) (records : list value) :
  (∀ f, VDict f ∈ records → dict_get (lit "currency") f ≠ Some (VStr c)) →
  ∀ rates rates', comprehension cur records rates = Ok rates' →
  dict_get c rates' = dict_get c rates.
Proof.
  induction records as [|x rest IH]; intros Hno rates rates' H.
  - by injection H as <-.
  - destruct x as [| | | | | |fields]; try discriminate H.
    rewrite comprehension_cons_dict in H.
    rewrite (IH (fun f Hf => Hno f (list_elem_of_further _ _ _ Hf)) _ _ H).
    unfold retain. specialize (Hno fields (list_elem_of_here _ _)).
    destruct (dict_get (lit "currency") fields) as [v|]; [|done].
    destruct v as [| | | |k| |]; try done.
    case_bool_decide; [|done]. apply dict_get_dict_set_ne. congruence.
Qed.


Lemma fetch_result_document (date : date) (cur : list str) (r : response)
  (doc : list (str * value)) (records : list value) :
  upstream (url_of date) = Ok r →
  status r = 200 →
  json r = Ok (VDict doc) →
  py_iter (default (VList []) (dict_get (lit "exchangeRate") doc)) = Ok records →
  fetch_result date cur
  = rates ← comprehension cur records []; Ok (VDict [(strftime date, VDict rates)]).
Proof.
  intros Hr Hs Hj Hi. rewrite (fetch_result_reply _ _ r Hr), Hs, Hj. simpl.
  unfold mbind, result_bind. by rewrite Hi.
Qed.

(** A reply with the status 200 and a decoded document makes
    [fetch_rates] return exactly when the document is a dictionary whose
    "exchangeRate" value (an empty list when the key is missing) can be
    iterated and gives only dictionaries. Otherwise it raises
    [AttributeError] or [TypeError]; it never raises [KeyError]. *)
Theorem fetch_rates_returns_iff (date : date) (cur : list str) (r : response)
  (data : value) (w : world) :
  upstream (url_of date) = Ok r →
  status r = 200 →
  json r = Ok data →
  ((∃ v, (fetch_rates date cur w).1 = Ok v)
   ↔ ∃ doc records,
       data = VDict doc
       ∧ py_iter (default (VList []) (dict_get (lit "exchangeRate") doc))
         = Ok records
       ∧ Forall is_dict records)
  ∧ ∀ e, (fetch_rates date cur w).1 = Raise e →
         e = AttributeError ∨ e = TypeError.
Proof.
  intros Hr Hs Hj. rewrite fetch_rates_run. simpl.
  rewrite (fetch_result_reply _ _ r Hr), Hs, Hj. simpl.
  unfold mbind, result_bind. split; [split|].
  - intros [v Hv]. destruct data as [| | | | | |doc]; try discriminate Hv.
    simpl in Hv.
    destruct (py_iter _) as [records|e] eqn:Hi; [|discriminate Hv].
    destruct (comprehension cur records []) as [rates|e] eqn:Hc; [|discriminate Hv].
    exists doc, records. split; [done|]. split; [done|].
    by eapply comprehension_ok_dicts.
  - intros (doc & records & -> & Hi & Hd). simpl. rewrite Hi.
    destruct (comprehension_skips cur records Hd []) as [_ [rates ->]]. eauto.
  - intros e He. destruct data as [| | | | | |doc];
      try (injection He as <-; by left).
    simpl in He. destruct (py_iter _) as [records|e'] eqn:Hi.
    + destruct (comprehension cur records []) as [rates|e'] eqn:Hc; [done|].
      injection He as <-. left. by eapply comprehension_exn.
    + injection He as <-. right.
      destruct (default _ _); simpl in Hi; congruence.
Qed.

(** For a reply with the status 200 whose records are dictionaries, the
    keys of the rates are exactly the requested currencies that some
    record names: none is added and none is lost. *)
Theorem rates_keys_iff (date : date) (cur : list str) (r : response)
  (doc : list (str * value)) (records : list value) (w : world) :
  upstream (url_of date) = Ok r →
  status r = 200 →
  json r = Ok (VDict doc) →
  py_iter (default (VList []) (dict_get (lit "exchangeRate") doc)) = Ok records →
  Forall is_dict records →
  ∃ rates,
    (fetch_rates date cur w).1 = Ok (VDict [(strftime date, VDict rates)])
    ∧ ∀ c, c ∈ keys rates
           ↔ c ∈ cur
             ∧ ∃ fields, VDict fields ∈ records
                         ∧ dict_get (lit "currency") fields = Some (VStr c).
Proof.
  intros Hr Hs Hj Hi Hd. rewrite fetch_rates_run. simpl.
  rewrite (fetch_result_document _ _ r doc records) by done.
  destruct (comprehension_skips cur records Hd []) as [_ [rates Hrates]].
  rewrite Hrates. exists rates. split; [done|]. intros c.
  rewrite (comprehension_keys _ _ _ _ Hrates c). split.
  - intros [Hnil|?]; [by apply elem_of_nil in Hnil|done].
  - by right.
Qed.

(** When several records name the same requested currency, the entry of
    the rates is built from the last of them. *)
Theorem rates_last_record_wins (date : date) (cur : list str) (r : response)
  (doc : list (str * value)) (pre post : list value)
  (fields : list (str * value)) (c : str) (w : world) :
  upstream (url_of date) = Ok r →
  status r = 200 →
  json r = Ok (VDict doc) →
  py_iter (default (VList []) (dict_get (lit "exchangeRate") doc))
  = Ok (pre ++ VDict fields :: post) →
  Forall is_dict (pre ++ VDict fields :: post) →
  dict_get (lit "currency") fields = Some (VStr c) →
  c ∈ cur →
  (∀ f, VDict f ∈ post → dict_get (lit "currency") f ≠ Some (VStr c)) →
  ∃ rates,
    (fetch_rates date cur w).1 = Ok (VDict [(strftime date, VDict rates)])
    ∧ dict_get c rates
      = Some (VDict [(lit "sale",
                      default VNone (dict_get (lit "saleRate") fields));
                     (lit "purchase",
                      default VNone (dict_get (lit "purchaseRate") fields))]).
Proof.
  intros Hr Hs Hj Hi Hd Hc Hcur Hpost. rewrite fetch_rates_run. simpl.
  rewrite (fetch_result_document _ _ r doc _) by done.
  destruct (comprehension_skips cur _ Hd []) as [_ [rates Hrates]].
  rewrite Hrates. exists rates. split; [done|].
  rewrite comprehension_app in Hrates.
  destruct (comprehension cur pre []) as [mid|e]; [|done].
  change (comprehension cur (VDict fields :: post) mid = Ok rates) in Hrates.
  rewrite comprehension_cons_dict in Hrates.
  rewrite (comprehension_get_other cur c post Hpost _ _ Hrates).
  unfold retain. rewrite Hc, bool_decide_eq_true_2 by done.
  apply dict_get_dict_set_eq.
Qed.

(** A result of [fetch_rates] has the key "error" exactly when the status
    of the reply was not 200, so a failed day can be told from a day with
    rates by that key. *)
Theorem error_key_iff_status (date : date) (cur : list str) (r : response)
  (v : value) (w : world) :
  upstream (url_of date) = Ok r →
  (fetch_rates date cur w).1 = Ok v →
  ∃ d, v = VDict d ∧ (is_Some (dict_get (lit "error") d) ↔ status r ≠ 200).
Proof.
  intros Hr Hv. rewrite fetch_rates_run in Hv. simpl in Hv.
  rewrite (fetch_result_reply _ _ r Hr) in Hv.
  destruct (Z.eqb_spec (status r) 200) as [Hs|Hs]; simpl in Hv.
  - unfold mbind, result_bind in Hv.
    destruct (json r) as [data|e]; [|done].
    destruct (py_get data _ _) as [x|e]; [|done].
    destruct (py_iter x) as [records|e]; [|done].
    destruct (comprehension cur records []) as [rates|e]; [|done].
    injection Hv as <-. eexists. split; [done|]. simpl.
    destruct (bool_decide_reflect (strftime date = lit "error")) as [Hd|Hd];
      [by apply strftime_not_error in Hd|].
    split; [by intros [? ?]|done].
  - injection Hv as <-. eexists. split; [done|]. simpl.
    destruct (bool_decide_reflect (lit "error" = lit "error")); [|done].
    split; [done|eauto].
Qed.


(** *** Further properties of the join and of the handler *)

Lemma requested_nil (w : world) : requested [] w = w.
Proof. destruct w. unfold requested. simpl. by rewrite app_nil_r. Qed.

Lemma requested_app (q1 q2 : list str) (w : world) :
  requested q2 (requested q1 w) = requested (q1 ++ q2) w.
Proof. unfold requested. simpl. by rewrite app_assoc. Qed.

(** The requests of the loop of completions: every pending task makes
    its request, in the order the tasks complete. *)
Lemma complete_requests {A : Type} (u : nat → str) (fuel : nat) :
  ∀ (pending : list (nat * M A)) (picks : list nat) (done : gmap nat A)
    (failed : option exn) (w : world),
  fuel = length pending →
  (∀ i t, (i, t) ∈ pending → ∀ w, (t w).2 = requested [u i] w) →
  ∃ done' failed' q,
    complete fuel pending picks done failed w = (done', failed', requested q w)
    ∧ q ≡ₚ u <$> pending.*1.
Proof.
  induction fuel as [|fuel IH]; intros pending picks done failed w Hlen Htasks.
  - destruct pending; [|done]. exists done, failed, []. simpl.
    by rewrite requested_nil.
  - simpl.
    destruct (pick_lt pending (hd 0%nat picks `mod` length pending)%nat)
      as ([i t] & pending' & -> & Hperm).
    { apply Nat.mod_upper_bound. rewrite <- Hlen. lia. }
    assert (Hlen' : fuel = length pending').
    { apply Permutation_length in Hperm. simpl in Hperm. lia. }
    assert (Htasks' : ∀ j v, (j, v) ∈ pending' →
              ∀ w, (v w).2 = requested [u j] w).
    { intros j v Hj. apply Htasks. rewrite Hperm. apply elem_of_cons. by right. }
    pose proof (Htasks i t) as Ht. specialize (Ht ltac:(rewrite Hperm; by left) w).
    destruct (t w) as [r w1]. simpl in Ht. subst w1.
    destruct r as [a|e].
    + destruct (IH pending' (tl picks) (<[i:=a]> done) failed
                  (requested [u i] w) Hlen' Htasks')
        as (done' & failed' & q & -> & Hq).
      exists done', failed', (u i :: q). rewrite requested_app. split; [done|].
      rewrite Hperm. simpl. by rewrite Hq.
    + destruct (IH pending' (tl picks) done (Some (default e failed))
                  (requested [u i] w) Hlen' Htasks')
        as (done' & failed' & q & -> & Hq).
      exists done', failed', (u i :: q). rewrite requested_app. split; [done|].
      rewrite Hperm. simpl. by rewrite Hq.
Qed.

(** The join of the fetches for [dates] requests each of their URLs once,
    whether or not a fetch raises. *)
Lemma gather_fetch_requests (dates : list date) (cur : list str) (w : world) :
  ∃ r q,
    gather ((fun d => fetch_rates d cur) <$> dates) w = (r, requested q w)
    ∧ q ≡ₚ url_of <$> dates.
Proof.
  set (tasks := (fun d => fetch_rates d cur) <$> dates).
  set (n := length dates).
  set (u := fun i => match dates !! i with Some d => url_of d | None => [] end).
  assert (Hn : length tasks = n) by apply length_fmap.
  destruct (complete_requests u n (zip (seq 0 n) tasks) completion ∅ None w)
    as (done' & failed' & q & Hc & Hq).
  { rewrite length_zip_with, length_seq. lia. }
  { intros i t Hit w1.
    apply elem_of_lookup_zip_with_1 in Hit as (j & x & y & Heq & Hx & Hy).
    injection Heq as -> ->. apply lookup_seq in Hx as [-> _]. simpl.
    unfold tasks in Hy. apply list_lookup_fmap_Some in Hy as (d & -> & Hd).
    unfold u. by rewrite Hd, fetch_rates_run. }
  rewrite fst_zip in Hq by (rewrite length_seq; lia).
  assert (Hu : u <$> seq 0 n = url_of <$> dates).
  { apply list_eq. intros i. rewrite !list_lookup_fmap.
    destruct (decide (i < n)%nat) as [Hi|Hi].
    - rewrite lookup_seq_lt by done. simpl. unfold u.
      destruct (lookup_lt_is_Some_2 dates i Hi) as [d ->]. done.
    - rewrite lookup_seq_ge by lia. rewrite lookup_ge_None_2 by (unfold n in Hi; lia).
      done. }
  rewrite Hu in Hq. unfold gather. rewrite Hn, Hc.
  destruct failed' as [e|]; eauto.
Qed.

Lemma tasks_dates (cur : list str) (l : list Z) :
  ∀ tasks,
    mapM (M := result)
         (fun i => date ← date_sub today i; mret (fetch_rates date cur)) l
    = Ok tasks →
    ∃ dates, tasks = (fun d => fetch_rates d cur) <$> dates
             ∧ length dates = length l.
Proof.
  induction l as [|i l IH]; intros tasks H.
  - injection H as <-. by exists [].
  - rewrite mapM_cons in H.
    destruct (date_sub today i) as [d|e]; [|done].
    destruct (mapM _ l) as [rest|e]; [|done].
    injection H as <-. destruct (IH rest eq_refl) as (dates & -> & Hlen).
    exists (d :: dates). split; [done|]. simpl. by rewrite Hlen.
Qed.

(** What a command does to the world, whatever the message: it appends.
    Either it returns with one response and one log line more, or it
    raises with none; in both cases it has made at most ten requests. *)
Lemma handle_exchange_effects (message : str) (w : world) :
  ∃ r s l q,
    handle_exchange message w
    = (r, {| sent := sent w ++ s; log_file := log_file w ++ l;
             requests := requests w ++ q |})
    ∧ (length q ≤ 10)%nat
    ∧ ((r = Ok () ∧ ∃ response line, s = [response] ∧ l = [line])
       ∨ (∃ e, r = Raise e ∧ s = [] ∧ l = [])).
Proof.
  assert (Hkeep : ∀ e, ∃ r s l q,
            (Raise e, w)
            = (r, {| sent := sent w ++ s; log_file := log_file w ++ l;
                     requests := requests w ++ q |})
            ∧ (length q ≤ 10)%nat
            ∧ ((r = Ok () ∧ ∃ response line, s = [response] ∧ l = [line])
               ∨ (∃ e, r = Raise e ∧ s = [] ∧ l = []))).
  { intros e. exists (Raise e), [], [], []. rewrite !app_nil_r.
    split; [by destruct w|]. split; [simpl; lia|]. right. by exists e. }
  rewrite handle_exchange_unfold.
  destruct (day_count message) as [days|e]; [|apply Hkeep].
  destruct ((days <? 1) || (10 <? days)) eqn:Hrange.
  { unfold send_and_log. rewrite validation_error_encodable.
    eexists (Ok ()), [_], [_], []. rewrite app_nil_r.
    split; [done|]. split; [simpl; lia|]. left. eauto. }
  destruct (mapM _ _) as [tasks|e] eqn:Htasks; [|apply Hkeep].
  destruct (tasks_dates _ _ _ Htasks) as (dates & -> & Hlen).
  assert (Hten : (length dates ≤ 10)%nat).
  { rewrite Hlen. unfold range. rewrite length_fmap, length_seq.
    apply orb_false_iff in Hrange as [_ Hhi]. apply Z.ltb_ge in Hhi. lia. }
  destruct (gather_fetch_requests dates currencies_default w)
    as (r & q & -> & Hq).
  assert (Hlq : (length q ≤ 10)%nat).
  { apply Permutation_length in Hq. rewrite length_fmap in Hq. lia. }
  destruct r as [results|e].
  - unfold send_and_log. destruct (encodable _).
    + eexists (Ok ()), [_], [_], q. split; [done|]. split; [done|]. left. eauto.
    + exists (Raise UnicodeEncodeError), [], [], q. rewrite !app_nil_r.
      split; [done|]. split; [done|]. right. by exists UnicodeEncodeError.
  - exists (Raise e), [], [], q. rewrite !app_nil_r.
    split; [done|]. split; [done|]. right. by exists e.
Qed.


Lemma all_return_values (cur : list str) (dates : list date) :
  (∀ d, d ∈ dates → ∃ v, fetch_result d cur = Ok v) →
  ∃ vs, Forall2 (fun d v => fetch_result d cur = Ok v) dates vs.
Proof.
  induction dates as [|d dates IH]; intros H; [by exists []|].
  destruct (H d) as [v Hv]; [by left|].
  destruct IH as [vs Hvs]; [intros d' Hd'; apply H; by right|].
  exists (v :: vs). by constructor.
Qed.

(** When the join of the fetches returns, what it returns are the
    results of the fetches, one per date and in the order of [dates]. *)
Lemma gather_fetch_ok (dates : list date) (cur : list str) (w w' : world)
  (results : list value) :
  gather ((fun d => fetch_rates d cur) <$> dates) w = (Ok results, w') →
  Forall2 (fun d v => fetch_result d cur = Ok v) dates results ∧ quiet w w'.
Proof.
  intros Hg.
  destruct (gather_fetch_spec dates cur w) as (r & w1 & Hrun & Hq & Hok & _ & Hraise).
  rewrite Hg in Hrun. injection Hrun as <- <-. split; [|done].
  destruct (all_return_values cur dates) as [vs Hvs].
  - intros d Hd. destruct (fetch_result d cur) as [v|e] eqn:Hf; [by exists v|].
    destruct Hraise as [e' He']; [by exists d, e|done].
  - specialize (Hok vs Hvs). by injection Hok as ->.
Qed.

Lemma day_count_second_token (message : str) :
  day_count message
  = match split message !! 1%nat with
    | Some token => int todecimal token
    | None => Ok 1
    end.
Proof.
  unfold day_count.
  destruct (split message) as [|first [|second others]]; simpl;
    try case_bool_decide; simpl in *; first [done | lia].
Qed.

(** [handle_client] over two runs of messages is [handle_client] over the
    first and, if that returned, over the second in the world it left; an
    exception of the first run is the outcome, and no message after it is
    handled. *)
Theorem handle_client_app (first second : list str) (w : world) :
  handle_client (first ++ second) w
  = match handle_client first w with
    | (Ok _, w') => handle_client second w'
    | (Raise e, w') => (Raise e, w')
    end.
Proof.
  revert w. induction first as [|message first IH]; intros w; [done|].
  simpl. unfold mbind, M_bind.
  destruct (if startswith message (lit "exchange") then _ else _) as [[[]|e] w1];
    [apply IH|done].
Qed.

(** The messages that do not start with [exchange] can be left out of a
    session without changing its outcome or the world it leaves. *)
Theorem handle_client_skips_others (websocket : list str) (w : world) :
  handle_client websocket w
  = handle_client
      (List.filter (fun message => startswith message (lit "exchange")) websocket) w.
Proof.
  revert w. induction websocket as [|message rest IH]; intros w; [done|].
  simpl. destruct (startswith message (lit "exchange")) eqn:Hs; simpl.
  - rewrite Hs. unfold mbind, M_bind.
    destruct (handle_exchange message w) as [[[]|e] w1]; [apply IH|done].
  - unfold mbind, M_bind. simpl. apply IH.
Qed.

(** A session only appends to what was sent, to the log and to the
    requests. It logs exactly as many lines as it sends responses, at
    most one per message, and makes at most ten requests per message. *)
Theorem session_appends (websocket : list str) (w : world) :
  ∃ r s l q,
    handle_client websocket w
    = (r, {| sent := sent w ++ s; log_file := log_file w ++ l;
             requests := requests w ++ q |})
    ∧ length s = length l
    ∧ (length s ≤ length websocket)%nat
    ∧ (length q ≤ 10 * length websocket)%nat.
Proof.
  revert w. induction websocket as [|message rest IH]; intros w.
  - exists (Ok ()), [], [], []. rewrite !app_nil_r. by destruct w.
  - simpl handle_client. unfold mbind, M_bind.
    destruct (startswith message (lit "exchange")).
    + destruct (handle_exchange_effects message w)
        as (r1 & s1 & l1 & q1 & -> & Hq1 & Hcase).
      destruct Hcase as [[-> (response & line & -> & ->)]|(e & -> & -> & ->)].
      * simpl.
        destruct (IH {| sent := sent w ++ [response];
                        log_file := log_file w ++ [line];
                        requests := requests w ++ q1 |})
          as (r & s & l & q & -> & Hsl & Hs & Hq).
        simpl. exists r, (response :: s), (line :: l), (q1 ++ q).
        rewrite <- !app_assoc. simpl. split; [done|].
        rewrite length_app. split; [lia|]. split; lia.
      * exists (Raise e), [], [], q1. split; [done|]. simpl. split; [done|].
        split; lia.
    + unfold mret, M_ret. simpl.
      destruct (IH w) as (r & s & l & q & -> & Hsl & Hs & Hq).
      exists r, s, l, q. simpl. split; [done|]. split; [done|]. split; lia.
Qed.

(** When a command returns, it has sent one response and logged one line
    that carries this response: the fixed error text itself, or the
    encoding of a list of exactly [days] results after [exchange <days>: ]. *)
Theorem response_is_logged (message : str) (w w' : world) :
  handle_exchange message w = (Ok (), w') →
  ∃ days response logged,
    day_count message = Ok days
    ∧ sent w' = sent w ++ [response]
    ∧ log_file w'
      = log_file w
        ++ [now (length (log_file w)) ++ lit " - " ++ logged ++ [10%N]]
    ∧ (((days < 1 ∨ 10 < days)
        ∧ response = validation_error ∧ logged = response)
       ∨ (1 ≤ days ≤ 10
          ∧ (∃ results, response = dumps (VList results)
                        ∧ Z.of_nat (length results) = days)
          ∧ logged = lit "exchange " ++ str_of_Z days ++ lit ": " ++ response)).
Proof.
  rewrite handle_exchange_unfold. unfold send_and_log.
  rewrite validation_error_encodable.
  destruct (day_count message) as [days|e]; [|done].
  destruct (Z.ltb_spec days 1) as [Hlo|Hlo]; simpl.
  { intros [= <-]. exists days. eexists _, _. split_and!; [done..|]. left.
    split_and!; [by left|done..]. }
  destruct (Z.ltb_spec 10 days) as [Hhi|Hhi]; simpl.
  { intros [= <-]. exists days. eexists _, _. split_and!; [done..|]. left.
    split_and!; [by right|done..]. }
  destruct (mapM _ _) as [tasks|e] eqn:Htasks; [|done].
  destruct (tasks_dates _ _ _ Htasks) as (dates & -> & Hlen).
  destruct (gather _ w) as [[results|e] w1] eqn:Hg; [|done].
  destruct (gather_fetch_ok _ _ _ _ _ Hg) as [Hres [Hs Hl]].
  destruct (encodable _); [|done].
  intros [= <-]. exists days. eexists _, _. simpl. rewrite Hs, Hl.
  split_and!; [done..|]. right. split; [lia|]. split; [|done].
  exists results. split; [done|].
  apply Forall2_length in Hres. rewrite <- Hres, Hlen.
  unfold range. rewrite length_fmap, length_seq. lia.
Qed.

(** A command depends on its message through the second token only:
    neither the first token nor any token after the second matters. *)
Theorem second_token_only (m1 m2 : str) (w : world) :
  split m1 !! 1%nat = split m2 !! 1%nat →
  handle_exchange m1 w = handle_exchange m2 w.
Proof.
  intros H. rewrite !handle_exchange_unfold, !day_count_second_token. by rewrite H.
Qed.

(** An accepted command makes exactly one request per day asked for, to
    the URLs of today and of the days before it, whether its fetches
    return or raise. *)
Theorem one_request_per_day (message : str) (days : Z) (w : world) :
  day_count message = Ok days →
  1 ≤ days ≤ 10 →
  10 ≤ today ≤ _MAXORDINAL →
  ∃ q, requests (handle_exchange message w).2 = requests w ++ q
       ∧ q ≡ₚ url_of <$> dates_of days
       ∧ Z.of_nat (length q) = days.
Proof.
  intros Hd Hdays Htoday. rewrite (handle_exchange_accepted _ days) by done.
  destruct (gather_fetch_requests (dates_of days) currencies_default w)
    as (r & q & -> & Hq).
  exists q. split.
  { destruct r; [|done]. unfold send_and_log. by destruct (encodable _). }
  split; [done|].
  apply Permutation_length in Hq. rewrite Hq. unfold dates_of.
  rewrite !length_fmap. apply length_range. lia.
Qed.

(** A reply with the status 200 whose body cannot be decoded, or whose
    document is not a dictionary, makes the whole accepted command raise
    out of the handler of the connection: nothing is sent or logged, also
    for the days whose fetches returned. *)
Theorem bad_document_aborts (message : str) (rest : list str) (days k : Z)
  (r : response) (w : world) :
  startswith message (lit "exchange") = true →
  day_count message = Ok days →
  1 ≤ days ≤ 10 →
  10 ≤ today ≤ _MAXORDINAL →
  0 ≤ k < days →
  upstream (url_of (today - k)) = Ok r →
  status r = 200 →
  (∃ e, json r = Raise e) ∨ (∃ data, json r = Ok data ∧ ¬ is_dict data) →
  ∃ e' w',
    handle_client (message :: rest) w = (Raise e', w')
    ∧ sent w' = sent w
    ∧ log_file w' = log_file w.
Proof.
  intros Hst Hd Hdays Htoday Hk Hr Hs Hbad.
  assert (He : ∃ e, fetch_result (today - k) currencies_default = Raise e).
  { rewrite (fetch_result_reply _ _ r Hr), Hs. simpl.
    destruct Hbad as [[e ->]|(data & -> & Hdata)]; [by exists e|].
    exists AttributeError. by destruct data. }
  destruct He as [e He].
  destruct (exchange_some_raise _ days k e w Hd Hdays Htoday Hk He)
    as (e' & w' & Hrun & [Hsent Hlog] & _).
  exists e', w'. split_and!; [|done..]. by apply handle_client_raise.
Qed.


(** An accepted command behaves as the command its log line names: the
    text [exchange <days>] written to the log is itself a message with
    the same day count. *)
Theorem logged_command_replays (message : str) (days : Z) (w : world) :
  day_count message = Ok days →
  1 ≤ days ≤ 10 →
  handle_exchange (lit "exchange " ++ str_of_Z days) w = handle_exchange message w.
Proof.
  intros Hd Hdays. destruct (day_count_exchange days Hdays) as [_ Hd'].
  by rewrite !handle_exchange_unfold, Hd, Hd'.
Qed.


(** *** The dispatch and the first token *)

Lemma startswith_app (t rest : str) : startswith (t ++ rest) t = true.
Proof.
  induction t as [|c t IH]; [by destruct rest|]. simpl. by rewrite N.eqb_refl.
Qed.

Lemma startswith_inv (s prefix : str) :
  startswith s prefix = true → ∃ rest, s = prefix ++ rest.
Proof.
  revert s. induction prefix as [|p prefix IH]; intros s H; [by exists s|].
  destruct s as [|c s]; [done|]. simpl in H.
  apply andb_true_iff in H as [Hc Hs]. apply N.eqb_eq in Hc as ->.
  destruct (IH s Hs) as [rest ->]. by exists rest.
Qed.

(** The first token is a prefix of the text from the start of the token on. *)
Lemma split_from_head (s word t : str) :
  head (split_from word s) = Some t →
  word ≠ [] ∨ (∃ c s', s = c :: s' ∧ isspace c = false) →
  ∃ rest, rev word ++ s = t ++ rest.
Proof.
  revert word. induction s as [|c s IH]; intros word Ht Hw; simpl in Ht.
  - destruct word as [|x word]; [by destruct Hw as [?|(? & ? & ? & ?)]|].
    injection Ht as <-. by exists [].
  - destruct (isspace c) eqn:Hc.
    + destruct word as [|x word].
      * destruct Hw as [?|(c' & s' & [= <- <-] & Hc')]; [done|congruence].
      * injection Ht as <-. by exists (c :: s).
    + destruct (IH (c :: word) Ht ltac:(by left)) as [rest Hrest].
      exists rest. rewrite <- Hrest. simpl. by rewrite <- app_assoc.
Qed.

(** With a token under way, the first token continues it. *)
Lemma split_from_word (s word : str) :
  word ≠ [] →
  ∃ x tokens, split_from word s = (rev word ++ x) :: tokens.
Proof.
  revert word. induction s as [|c s IH]; intros word Hw; simpl.
  - destruct word; [done|]. exists [], []. by rewrite app_nil_r.
  - destruct (isspace c).
    + destruct word; [done|]. exists [], (split_from [] s). by rewrite app_nil_r.
    + destruct (IH (c :: word) ltac:(done)) as (x & tokens & ->).
      exists (c :: x), tokens. simpl. by rewrite <- app_assoc.
Qed.

(** A message whose first token is [exchange] and that does not begin
    with white space is dispatched. *)
Theorem first_token_dispatched (message : str) :
  head (split message) = Some (lit "exchange") →
  (∀ c, head message = Some c → isspace c = false) →
  startswith message (lit "exchange") = true.
Proof.
  intros Ht Hc. unfold split in Ht.
  destruct message as [|c s]; [done|].
  destruct (split_from_head (c :: s) [] _ Ht) as [rest Hrest].
  { right. exists c, s. split; [done|]. by apply Hc. }
  change (rev [] ++ c :: s) with (c :: s) in Hrest.
  rewrite Hrest. apply startswith_app.
Qed.

(** A dispatched message has a first token, and this token begins with
    [exchange]; what follows it in the token is not looked at. *)
Theorem dispatched_first_token (message : str) :
  startswith message (lit "exchange") = true →
  ∃ x tokens, split message = (lit "exchange" ++ x) :: tokens.
Proof.
  intros Hs. apply startswith_inv in Hs as [rest ->].
  destruct (split_from_word rest (rev (lit "exchange")) ltac:(done))
    as (x & tokens & Hsplit).
  exists x, tokens. rewrite rev_involutive in Hsplit. by rewrite <- Hsplit.
Qed.

(** *** The date of the request *)

(** The month and the day of [_ord2ymd], checked for every day of a year. *)
Lemma month_day_check :
  forallb (fun k =>
    forallb (fun leapyear =>
      let n := Z.of_nat k in
      let month := Z.shiftr (n + 50) 5 in
      let preceding :=
        nth (Z.to_nat month) _DAYS_BEFORE_MONTH 0
        + Z_of_bool ((2 <? month) && leapyear) in
      let '(month, preceding) :=
        if n <? preceding then
          (month - 1,
           preceding - (nth (Z.to_nat (month - 1)) _DAYS_IN_MONTH 0
                        + Z_of_bool ((month - 1 =? 2) && leapyear)))
        else (month, preceding) in
      (1 <=? month) && (month <=? 12) && (1 <=? n - preceding + 1)
      && (n - preceding + 1 <=? 31)) [true; false]) (seq 0 365) = true.
Proof. vm_compute. reflexivity. Qed.

Lemma month_day_bounds (n : Z) (leapyear : bool) :
  0 ≤ n < 365 →
  ∃ m p,
    (if n <? nth (Z.to_nat ((n + 50) ≫ 5)) _DAYS_BEFORE_MONTH 0
             + Z_of_bool ((2 <? (n + 50) ≫ 5) && leapyear)
     then ((n + 50) ≫ 5 - 1,
           nth (Z.to_nat ((n + 50) ≫ 5)) _DAYS_BEFORE_MONTH 0
           + Z_of_bool ((2 <? (n + 50) ≫ 5) && leapyear)
           - (nth (Z.to_nat ((n + 50) ≫ 5 - 1)) _DAYS_IN_MONTH 0
              + Z_of_bool (((n + 50) ≫ 5 - 1 =? 2) && leapyear)))
     else ((n + 50) ≫ 5,
           nth (Z.to_nat ((n + 50) ≫ 5)) _DAYS_BEFORE_MONTH 0
           + Z_of_bool ((2 <? (n + 50) ≫ 5) && leapyear)))
    = (m, p)
    ∧ 1 ≤ m ≤ 12 ∧ 1 ≤ n - p + 1 ≤ 31.
Proof.
  intros Hn. pose proof month_day_check as Hc.
  rewrite forallb_forall in Hc. specialize (Hc (Z.to_nat n)).
  rewrite forallb_forall in Hc.
  specialize (Hc ltac:(apply in_seq; lia) leapyear
                 ltac:(destruct leapyear; simpl; auto)).
  cbv zeta in Hc. rewrite Z2Nat.id in Hc by lia.
  destruct (if n <? _ then _ else _) as [m p]. exists m, p. split; [done|].
  rewrite !andb_true_iff, !Z.leb_le in Hc. lia.
Qed.

Lemma ord2ymd_bounds (d : date) :
  364878 ≤ d ≤ _MAXORDINAL →
  ∃ y m dd, _ord2ymd d = (y, m, dd)
            ∧ 1000 ≤ y ≤ 9999 ∧ 1 ≤ m ≤ 12 ∧ 1 ≤ dd ≤ 31.
Proof.
  intros Hd. unfold _ord2ymd, _DI400Y, _DI100Y, _DI4Y, _MAXORDINAL in *. cbv zeta.
  set (n0 := d - 1).
  set (n400 := n0 / 146097). set (r1 := n0 mod 146097).
  set (n100 := r1 / 36524). set (r2 := r1 mod 36524).
  set (n4 := r2 / 1461). set (r3 := r2 mod 1461).
  set (n1 := r3 / 365). set (n := r3 mod 365).
  assert (H1 : n0 = 146097 * n400 + r1 ∧ 0 ≤ r1 < 146097).
  { unfold n400, r1. split; [apply Z.div_mod; lia|apply Z.mod_pos_bound; lia]. }
  assert (H2 : r1 = 36524 * n100 + r2 ∧ 0 ≤ r2 < 36524).
  { unfold n100, r2. split; [apply Z.div_mod; lia|apply Z.mod_pos_bound; lia]. }
  assert (H3 : r2 = 1461 * n4 + r3 ∧ 0 ≤ r3 < 1461).
  { unfold n4, r3. split; [apply Z.div_mod; lia|apply Z.mod_pos_bound; lia]. }
  assert (H4 : r3 = 365 * n1 + n ∧ 0 ≤ n < 365).
  { unfold n1, n. split; [apply Z.div_mod; lia|apply Z.mod_pos_bound; lia]. }
  assert (Hn0 : n0 = d - 1) by reflexivity.
  clearbody n0 n400 r1 n100 r2 n4 r3 n1 n.
  set (leapyear := (n1 =? 3) && (negb (n4 =? 24) || (n100 =? 3))).
  clearbody leapyear.
  destruct ((n1 =? 4) || (n100 =? 4)) eqn:Hlast.
  - eexists _, _, _. split; [done|].
    apply orb_true_iff in Hlast. rewrite !Z.eqb_eq in Hlast. lia.
  - destruct (month_day_bounds n leapyear) as (m & p & -> & Hm & Hp); [lia|].
    eexists _, _, _. split; [done|].
    apply orb_false_iff in Hlast. rewrite !Z.eqb_neq in Hlast. lia.
Qed.

Lemma two_digits_check :
  forallb (fun k =>
    match zfill 2 (str_of_Z (Z.of_nat k)) with
    | [a; b] => is_digit a && is_digit b
    | _ => false
    end) (seq 1 31) = true.
Proof. vm_compute. reflexivity. Qed.

Lemma four_digits_check :
  forallb (fun k =>
    match zfill 4 (str_of_Z (Z.of_nat k)) with
    | [a; b; c; e] => is_digit a && is_digit b && is_digit c && is_digit e
    | _ => false
    end) (seq 1000 (Z.to_nat 9000)) = true.
Proof. vm_compute. reflexivity. Qed.

Lemma two_digits (x : Z) :
  1 ≤ x ≤ 31 →
  ∃ a b, zfill 2 (str_of_Z x) = [a; b] ∧ is_digit a = true ∧ is_digit b = true.
Proof.
  intros Hx. pose proof two_digits_check as Hc. rewrite forallb_forall in Hc.
  specialize (Hc (Z.to_nat x) ltac:(apply in_seq; lia)).
  rewrite Z2Nat.id in Hc by lia.
  destruct (zfill 2 (str_of_Z x)) as [|a [|b [|]]]; try done.
  apply andb_true_iff in Hc as [? ?]. by exists a, b.
Qed.

Lemma four_digits (x : Z) :
  1000 ≤ x ≤ 9999 →
  ∃ a b c e, zfill 4 (str_of_Z x) = [a; b; c; e]
             ∧ is_digit a = true ∧ is_digit b = true
             ∧ is_digit c = true ∧ is_digit e = true.
Proof.
  intros Hx. pose proof four_digits_check as Hc. rewrite forallb_forall in Hc.
  specialize (Hc (Z.to_nat x) ltac:(apply in_seq; lia)).
  rewrite Z2Nat.id in Hc by lia.
  destruct (zfill 4 (str_of_Z x)) as [|a [|b [|c [|e [|]]]]]; try done.
  rewrite !andb_true_iff in Hc. destruct Hc as [[[? ?] ?] ?]. by exists a, b, c, e.
Qed.

(** From the year 1000 on, the URL [fetch_rates] requests ends in the
    date as two digits, a dot, two digits, a dot and four digits. *)
Theorem url_date_shape (d : date) :
  364878 ≤ d ≤ _MAXORDINAL →
  ∃ d1 d2 m1 m2 y1 y2 y3 y4,
    url_of d = BASE_URL ++ lit "?date="
               ++ [d1; d2; 46%N; m1; m2; 46%N; y1; y2; y3; y4]
    ∧ forallb is_digit [d1; d2; m1; m2; y1; y2; y3; y4] = true.
Proof.
  intros Hd. unfold url_of, strftime.
  destruct (ord2ymd_bounds d Hd) as (y & m & dd & -> & Hy & Hm & Hdd).
  destruct (two_digits dd Hdd) as (d1 & d2 & -> & Hd1 & Hd2).
  destruct (two_digits m ltac:(lia)) as (m1 & m2 & -> & Hm1 & Hm2).
  destruct (four_digits y Hy) as (y1 & y2 & y3 & y4 & -> & Hy1 & Hy2 & Hy3 & Hy4).
  exists d1, d2, m1, m2, y1, y2, y3, y4. split; [done|].
  simpl. by rewrite Hd1, Hd2, Hm1, Hm2, Hy1, Hy2, Hy3, Hy4.
Qed.

End Server.

(** ** The claims on the sample environment *)


(** C2, as the claim states it, fails: [exchanges] is not the token
    [exchange] and is answered and logged; [ exchange], after a blank,
    has [exchange] as its first token and is skipped. *)
Lemma C2_counterexample :
  (head (split (lit "exchanges")) ≠ Some (lit "exchange")
   ∧ length (sent (handle_client ascii_only sample_dumps sample_today
                     sample_upstream [] sample_now [lit "exchanges"] w0).2)
     = 1%nat
   ∧ length (log_file (handle_client ascii_only sample_dumps sample_today
                         sample_upstream [] sample_now [lit "exchanges"] w0).2)
     = 1%nat)
  ∧ (head (split (lit " exchange")) = Some (lit "exchange")
     ∧ handle_client ascii_only sample_dumps sample_today sample_upstream []
         sample_now [lit " exchange"] w0
       = (Ok (), w0)).
Proof.
  split; split.
  - vm_compute. discriminate.
  - split; vm_compute; reflexivity.
  - vm_compute. reflexivity.
  - vm_compute. reflexivity.
Qed.

Lemma C3_witness :
  handle_exchange ascii_only sample_dumps sample_today sample_upstream []
    sample_now (lit "exchange 11") w0
  = (Ok (),
     {| sent := [validation_error];
        log_file := [sample_now 0%nat ++ lit " - " ++ validation_error ++ [10%N]];
        requests := [] |}).
Proof.
  apply (C3_day_count_out_of_range ascii_only sample_dumps sample_today
           sample_upstream [] sample_now (lit "exchange 11") 11 w0).
  - vm_compute. reflexivity.
  - right. lia.
Defined.



Lemma C6_witness :
  ∃ data exchangeRate records rates,
    Ok sample_payload = Ok data
    ∧ py_get data (lit "exchangeRate") (VList []) = Ok exchangeRate
    ∧ py_iter exchangeRate = Ok records
    ∧ sample_day0 = VDict [(strftime sample_today, VDict rates)]
    ∧ ∀ c entry, (c, entry) ∈ rates →
        c ∈ currencies_default
        ∧ ∃ fields,
            VDict fields ∈ records
            ∧ dict_get (lit "currency") fields = Some (VStr c)
            ∧ entry
              = VDict [(lit "sale",
                        default VNone (dict_get (lit "saleRate") fields));
                       (lit "purchase",
                        default VNone (dict_get (lit "purchaseRate") fields))].
Proof.
  apply (C6_rates_are_filtered sample_upstream sample_today currencies_default
           (Response 200 (Ok sample_payload)) w0).
  - vm_compute. reflexivity.
  - reflexivity.
  - vm_compute. reflexivity.
Defined.

Lemma C7_witness :
  handle_client ascii_only sample_dumps sample_today sample_upstream []
    sample_now [lit "exchange abc"; lit "exchange 1"] w0
  = (Raise ValueError, w0).
Proof.
  apply (C7_parse_is_not_guarded ascii_only sample_dumps sample_today
           sample_upstream [] sample_now (lit "exchange abc")
           [lit "exchange 1"] ValueError w0).
  - reflexivity.
  - vm_compute. lia.
  - vm_compute. reflexivity.
Defined.

Lemma C8_witness :
  ∃ e' w',
    handle_client ascii_only sample_dumps sample_today sample_upstream
      [3; 0; 0; 0]%nat sample_now [lit "exchange 4"; lit "exchange 1"] w0
    = (Raise e', w')
    ∧ sent w' = sent w0
    ∧ log_file w' = log_file w0
    ∧ ∃ j, 0 ≤ j < 4
           ∧ fetch_result sample_upstream (sample_today - j) currencies_default
             = Raise e'.
Proof.
  apply (C8_transport_fault_aborts ascii_only sample_dumps sample_today
           sample_upstream [3; 0; 0; 0]%nat sample_now (lit "exchange 4")
           [lit "exchange 1"] 4 3 ClientError w0).
  - reflexivity.
  - vm_compute. reflexivity.
  - lia.
  - unfold sample_today, _MAXORDINAL. lia.
  - lia.
  - vm_compute. reflexivity.
Defined.

Lemma C9_witness :
  ∃ d, (fetch_rates sample_upstream (sample_today - 1) currencies_default w0).1
       = Ok (VDict d)
       ∧ keys d = [lit "error"]
       ∧ dict_get (strftime (sample_today - 1)) d = None.
Proof.
  apply (C9_error_carries_no_date sample_upstream (sample_today - 1)
           currencies_default (Response 404 (Raise ValueError)) w0).
  - vm_compute. reflexivity.
  - simpl. lia.
Defined.

(** C10, as the claim states it, fails: with the status 200 and a
    decoded document, [fetch_rates] raises when a record is a number,
    when "exchangeRate" is [null], and when the document is a list. *)
Lemma C10_counterexample :
  (fetch_rates number_record_upstream sample_today currencies_default w0).1
  = Raise AttributeError
  ∧ (fetch_rates null_rates_upstream sample_today currencies_default w0).1
    = Raise TypeError
  ∧ (fetch_rates list_document_upstream sample_today currencies_default w0).1
    = Raise AttributeError.
Proof. split_and!; vm_compute; reflexivity. Qed.

Lemma C10_witness :
  (fetch_rates sample_upstream (sample_today - 2) currencies_default w0).1
  = Ok sample_day2
  ∧ ∃ rates,
      (fetch_rates sample_upstream sample_today currencies_default w0).1
      = Ok (VDict [(strftime sample_today, VDict rates)])
      ∧ comprehension currencies_default
          [VDict [(lit "currency", VStr (lit "GBP"));
                  (lit "saleRate", VInt 55);
                  (lit "purchaseRate", VInt 54)];
           VDict [(lit "currency", VStr (lit "USD"));
                  (lit "saleRate", VFloat f41_5);
                  (lit "purchaseRate", VFloat f41_05)];
           VDict [(lit "currency", VStr (lit "EUR"));
                  (lit "purchaseRate", VInt 47)]] []
        = Ok rates.
Proof.
  split.
  - apply (proj1 (C10_malformed_records_are_skipped sample_upstream
                    (sample_today - 2) currencies_default
                    (Response 200 (Ok sample_day2_payload))
                    [(lit "date", VStr (lit "01.11.2026"))] w0
                    ltac:(vm_compute; reflexivity) eq_refl eq_refl)).
    reflexivity.
  - apply (proj2 (C10_malformed_records_are_skipped sample_upstream
                    sample_today currencies_default
                    (Response 200 (Ok sample_payload)) sample_fields w0
                    ltac:(vm_compute; reflexivity) eq_refl eq_refl)
             sample_records).
    + reflexivity.
    + repeat constructor.
Defined.

(** ** The further properties on the sample environment *)

Lemma fetch_rates_returns_iff_witness :
  ((∃ v, (fetch_rates sample_upstream sample_today currencies_default w0).1 = Ok v)
   ↔ ∃ doc records,
       sample_payload = VDict doc
       ∧ py_iter (default (VList []) (dict_get (lit "exchangeRate") doc))
         = Ok records
       ∧ Forall is_dict records)
  ∧ ∀ e, (fetch_rates sample_upstream sample_today currencies_default w0).1
         = Raise e →
         e = AttributeError ∨ e = TypeError.
Proof.
  apply (fetch_rates_returns_iff sample_upstream sample_today currencies_default
           (Response 200 (Ok sample_payload)) sample_payload w0).
  - vm_compute. reflexivity.
  - reflexivity.
  - reflexivity.
Defined.

Lemma rates_keys_iff_witness :
  ∃ rates,
    (fetch_rates sample_upstream sample_today currencies_default w0).1
    = Ok (VDict [(strftime sample_today, VDict rates)])
    ∧ ∀ c, c ∈ keys rates
           ↔ c ∈ currencies_default
             ∧ ∃ fields, VDict fields ∈ sample_records
                         ∧ dict_get (lit "currency") fields = Some (VStr c).
Proof.
  apply (rates_keys_iff sample_upstream sample_today currencies_default
           (Response 200 (Ok sample_payload)) sample_fields sample_records w0).
  - vm_compute. reflexivity.
  - reflexivity.
  - reflexivity.
  - reflexivity.
  - repeat constructor.
Defined.

Lemma rates_last_record_wins_witness :
  ∃ rates,
    (fetch_rates repeating_upstream sample_today currencies_default w0).1
    = Ok (VDict [(strftime sample_today, VDict rates)])
    ∧ dict_get (lit "USD") rates
      = Some (VDict [(lit "sale", VNone); (lit "purchase", VInt 39)]).
Proof.
  apply (rates_last_record_wins repeating_upstream sample_today
           currencies_default (Response 200 (Ok (VDict repeating_doc)))
           repeating_doc [VDict sample_usd_first] [] sample_usd_last
           (lit "USD") w0).
  - reflexivity.
  - reflexivity.
  - reflexivity.
  - reflexivity.
  - repeat constructor.
  - reflexivity.
  - vm_compute. apply list_elem_of_here.
  - intros f Hf. by apply elem_of_nil in Hf.
Defined.

Lemma error_key_iff_status_witness :
  ∃ d, sample_day1 = VDict d
       ∧ (is_Some (dict_get (lit "error") d) ↔ 404 ≠ 200).
Proof.
  apply (error_key_iff_status sample_upstream (sample_today - 1)
           currencies_default (Response 404 (Raise ValueError)) sample_day1 w0).
  - vm_compute. reflexivity.
  - vm_compute. reflexivity.
Defined.

Lemma response_is_logged_witness :
  ∃ days response logged,
    day_count ascii_only (lit "exchange 2") = Ok days
    ∧ sent (handle_exchange ascii_only sample_dumps sample_today sample_upstream
              [1; 0]%nat sample_now (lit "exchange 2") w0).2
      = sent w0 ++ [response]
    ∧ log_file (handle_exchange ascii_only sample_dumps sample_today
                  sample_upstream [1; 0]%nat sample_now (lit "exchange 2") w0).2
      = log_file w0
        ++ [sample_now (length (log_file w0)) ++ lit " - " ++ logged ++ [10%N]]
    ∧ (((days < 1 ∨ 10 < days)
        ∧ response = validation_error ∧ logged = response)
       ∨ (1 ≤ days ≤ 10
          ∧ (∃ results, response = sample_dumps (VList results)
                        ∧ Z.of_nat (length results) = days)
          ∧ logged = lit "exchange " ++ str_of_Z days ++ lit ": " ++ response)).
Proof.
  apply (response_is_logged ascii_only sample_dumps sample_today sample_upstream
           [1; 0]%nat sample_now (lit "exchange 2") w0).
  vm_compute. reflexivity.
Defined.

Lemma second_token_only_witness :
  handle_exchange ascii_only sample_dumps sample_today sample_upstream [0; 0]%nat
    sample_now (lit "exchanges   2 days please") w0
  = handle_exchange ascii_only sample_dumps sample_today sample_upstream
      [0; 0]%nat sample_now (lit "exchange 2") w0.
Proof.
  apply (second_token_only ascii_only sample_dumps sample_today sample_upstream
           [0; 0]%nat sample_now).
  vm_compute. reflexivity.
Defined.

Lemma one_request_per_day_witness :
  ∃ q, requests (handle_exchange ascii_only sample_dumps sample_today
                   sample_upstream [3; 1; 0; 0]%nat sample_now
                   (lit "exchange 4") w0).2
       = requests w0 ++ q
       ∧ q ≡ₚ url_of <$> dates_of sample_today 4
       ∧ Z.of_nat (length q) = 4.
Proof.
  apply (one_request_per_day ascii_only sample_dumps sample_today sample_upstream
           [3; 1; 0; 0]%nat sample_now (lit "exchange 4") 4 w0).
  - vm_compute. reflexivity.
  - lia.
  - unfold sample_today, _MAXORDINAL. lia.
Defined.

Lemma bad_document_aborts_witness :
  ∃ e' w',
    handle_client ascii_only sample_dumps sample_today broken_upstream
      [0; 0]%nat sample_now [lit "exchange 2"; lit "exchange"] w0
    = (Raise e', w')
    ∧ sent w' = sent w0
    ∧ log_file w' = log_file w0.
Proof.
  apply (bad_document_aborts ascii_only sample_dumps sample_today broken_upstream
           [0; 0]%nat sample_now (lit "exchange 2") [lit "exchange"] 2 1
           (Response 200 (Ok (VList []))) w0).
  - reflexivity.
  - vm_compute. reflexivity.
  - lia.
  - unfold sample_today, _MAXORDINAL. lia.
  - lia.
  - vm_compute. reflexivity.
  - reflexivity.
  - right. exists (VList []). split; [reflexivity|]. simpl. intros [].
Defined.

Lemma logged_command_replays_witness :
  handle_exchange ascii_only sample_dumps sample_today sample_upstream [0; 0]%nat
    sample_now (lit "exchange " ++ str_of_Z 2) w0
  = handle_exchange ascii_only sample_dumps sample_today sample_upstream
      [0; 0]%nat sample_now (lit "exchanges +2 days") w0.
Proof.
  apply (logged_command_replays ascii_only sample_dumps sample_today
           sample_upstream [0; 0]%nat sample_now (lit "exchanges +2 days") 2 w0).
  - vm_compute. reflexivity.
  - lia.
Defined.

Lemma first_token_dispatched_witness :
  startswith (lit "exchange 3") (lit "exchange") = true.
Proof.
  apply (first_token_dispatched (lit "exchange 3")).
  - vm_compute. reflexivity.
  - intros c Hc. vm_compute in Hc. injection Hc as <-. reflexivity.
Defined.

Lemma dispatched_first_token_witness :
  ∃ x tokens, split (lit "exchanges 2") = (lit "exchange" ++ x) :: tokens.
Proof.
  apply (dispatched_first_token (lit "exchanges 2")). reflexivity.
Defined.

Lemma url_date_shape_witness :
  ∃ d1 d2 m1 m2 y1 y2 y3 y4,
    url_of sample_today
    = BASE_URL ++ lit "?date=" ++ [d1; d2; 46%N; m1; m2; 46%N; y1; y2; y3; y4]
    ∧ forallb is_digit [d1; d2; m1; m2; y1; y2; y3; y4] = true.
Proof.
  apply (url_date_shape sample_today). unfold sample_today, _MAXORDINAL. lia.
Defined.
